(** * serverless-plugin-external-sns-events: the plugin of [src/index.js]

    A shallow embedding of the plugin class: JavaScript values and the
    string primitives the plugin calls, the configuration records it reads,
    the permission compiler as a function on the template's resource map,
    and the promise-returning actions as programs over the provider's
    remote requests, run against an arbitrary remote. *)

From Stdlib Require Import String Ascii ZArith List Bool Lia.
From stdpp Require Import base gmap strings pretty.
Import ListNotations.

Local Open Scope string_scope.
Local Open Scope Z_scope.

(** ** JavaScript values *)

(** The values the plugin handles where a string is expected: a string,
    or one of the two empty values. *)
Inductive jsvalue : Type :=
| undefined
| null
| str (s : string).

(** Truthiness as tested by [if (x)], [x || y] and [!x]. *)
Definition truthy (v : jsvalue) : bool :=
  match v with
  | str s => negb (String.eqb s "")
  | _ => false
  end.

(** [a || b]. *)
Definition js_or (a b : jsvalue) : jsvalue := if truthy a then a else b.

(** [a === b]. *)
Definition strict_eq (a b : jsvalue) : bool :=
  match a, b with
  | undefined, undefined => true
  | null, null => true
  | str s, str t => String.eqb s t
  | _, _ => false
  end.

(** The text a value contributes to a string concatenation ['...' + v]. *)
Definition toString (v : jsvalue) : string :=
  match v with
  | undefined => "undefined"
  | null => "null"
  | str s => s
  end.

(** ** String primitives *)

Definition is_upper (c : ascii) : bool :=
  let n := nat_of_ascii c in ((65 <=? n) && (n <=? 90))%nat.

Definition is_lower (c : ascii) : bool :=
  let n := nat_of_ascii c in ((97 <=? n) && (n <=? 122))%nat.

Definition is_digit (c : ascii) : bool :=
  let n := nat_of_ascii c in ((48 <=? n) && (n <=? 57))%nat.

(** The character class [0-9A-Za-z]. *)
Definition is_alnum (c : ascii) : bool := is_digit c || is_upper c || is_lower c.

Definition lower_char (c : ascii) : ascii :=
  if is_upper c then ascii_of_nat (nat_of_ascii c + 32) else c.

Definition upper_char (c : ascii) : ascii :=
  if is_lower c then ascii_of_nat (nat_of_ascii c - 32) else c.

(** [s.toLowerCase()] and [s.toUpperCase()].  Strings are taken as ASCII
    text, as ARNs, topic names and function names are: the letters a-z and
    A-Z change case, every other character, also one outside ASCII that
    JavaScript would map by Unicode, is left as it is. *)
Fixpoint toLowerCase (s : string) : string :=
  match s with
  | EmptyString => EmptyString
  | String c t => String (lower_char c) (toLowerCase t)
  end.

Fixpoint toUpperCase (s : string) : string :=
  match s with
  | EmptyString => EmptyString
  | String c t => String (upper_char c) (toUpperCase t)
  end.

Fixpoint startsWith (s pat : string) {struct pat} : bool :=
  match pat, s with
  | EmptyString, _ => true
  | String a p, String b t => Ascii.eqb a b && startsWith t p
  | String _ _, EmptyString => false
  end.

Fixpoint indexOf_from (s pat : string) (i : Z) : Z :=
  if startsWith s pat then i
  else match s with
       | EmptyString => -1
       | String _ t => indexOf_from t pat (i + 1)
       end.

(** [s.indexOf(pat)]: the first position of [pat] in [s], or [-1]. *)
Definition indexOf (s pat : string) : Z := indexOf_from s pat 0.

(** [s.split(sep)] for a one-character separator. *)
Fixpoint split (sep : ascii) (s : string) : list string :=
  match s with
  | EmptyString => [EmptyString]
  | String c t =>
      if Ascii.eqb c sep then EmptyString :: split sep t
      else match split sep t with
           | h :: r => String c h :: r
           | [] => [String c EmptyString]
           end
  end.

(** [a[i]] on an array of strings: [undefined] past the end. *)
Definition at_index (a : list string) (i : nat) : jsvalue :=
  match nth_error a i with
  | Some s => str s
  | None => undefined
  end.

(** [s.replace(/[^0-9A-Za-z]/g, '')]. *)
Fixpoint strip_non_alnum (s : string) : string :=
  match s with
  | EmptyString => EmptyString
  | String c t => if is_alnum c then String c (strip_non_alnum t) else strip_non_alnum t
  end.

(** A string free of the separator. *)
Fixpoint free_of (sep : ascii) (s : string) : bool :=
  match s with
  | EmptyString => true
  | String c t => negb (Ascii.eqb c sep) && free_of sep t
  end.

(** ** Errors *)

Inductive result (A : Type) : Type :=
| Ok (a : A)
| TypeError (msg : string).
Arguments Ok {A} a.
Arguments TypeError {A} msg.

(** ** Name normalization *)

(** [_normalize]: [_.isEmpty(s)] holds of [undefined], [null] and the empty
    string, and the function then returns nothing. *)
Definition _normalize (s : jsvalue) : jsvalue :=
  match s with
  | str (String c t) => str (toUpperCase (String c EmptyString) ++ t)
  | _ => undefined
  end.

(** [_normalizeTopicName]: [arn.replace] is a property access on [arn], which
    throws on [undefined] and [null]. *)
Definition _normalizeTopicName (arn : jsvalue) : result jsvalue :=
  match arn with
  | str s => Ok (_normalize (str (strip_non_alnum s)))
  | undefined => TypeError "Cannot read properties of undefined (reading 'replace')"
  | null => TypeError "Cannot read properties of null (reading 'replace')"
  end.

(** ** Configuration records *)

(** A JSON tree, as a delivery policy is given in the configuration. *)
#[warnings="-register-all"]
Inductive json : Type :=
| JNull
| JBool (b : bool)
| JNumber (n : Z)
| JString (s : string)
| JArray (items : list json)
| JObject (fields : list (string * json)).

(** The text [JSON.stringify(v)], kept symbolic. *)
Inductive json_text : Type :=
| JSON_stringify (v : json).

(** The object form of an [externalSNS] binding.  [DeliveryPolicy] is an
    own property when [Some] ([_.has]); [topic] and [Protocol] read as
    [undefined] when missing. *)
Record TopicObject : Type := {
  topic : jsvalue;
  DeliveryPolicy : option json;
  Protocol : jsvalue
}.

(** An [externalSNS] binding: a bare string or an object ([_.isObject]). *)
Inductive TopicBinding : Type :=
| bare (name : string)
| object (o : TopicObject).

Record HttpEvent : Type := { path : jsvalue }.

Record Event : Type := {
  externalSNS : option TopicBinding;
  http : option HttpEvent
}.

Record FunctionDefinition : Type := {
  name : string;
  events : list Event
}.

Record Options : Type := {
  noDeploy : bool;
  stage : jsvalue;
  region : jsvalue
}.

(** What the actions read from [this]: [_opts] and the name answered by
    [provider.naming.getApiGatewayName()]. *)
Record Plugin : Type := {
  _opts : Options;
  getApiGatewayName : string
}.

Definition DELIVERY_POLICY_ATTR : string := "DeliveryPolicy".
Definition DEFAULT_REGION : string := "us-east-1".

(** [util.format(INVOKE_URL_TEMPLATE, a, b, c, d)]. *)
Definition INVOKE_URL (a b c d : jsvalue) : string :=
  "https://" ++ toString a ++ ".execute-api." ++ toString b
  ++ ".amazonaws.com/" ++ toString c ++ "/" ++ toString d.

(** ** The permission compiler *)

#[warnings="-register-all"]
Inductive cfn : Type :=
| Lit (v : jsvalue)
| Ref (logical : string)
| Fn_GetAtt (resource attribute : string)
| Fn_Join (sep : string) (parts : list cfn).

Record Properties : Type := {
  FunctionName : cfn;
  Action : string;
  Principal : string;
  SourceArn : cfn
}.

Record Resource : Type := {
  Type_ : string;
  Properties_ : Properties
}.

(** The topic name of a binding: [topicName.topic] of an object, the string
    itself otherwise. *)
Definition topic_of (topicName : TopicBinding) : jsvalue :=
  match topicName with
  | bare s => str s
  | object o => topic o
  end.

Definition permRef_of (normalizedFnName normalizedTopicName : jsvalue) : string :=
  toString normalizedFnName ++ "LambdaPermission" ++ toString normalizedTopicName.

Definition permission_of (normalizedFnName topicName : jsvalue) : Resource :=
  {| Type_ := "AWS::Lambda::Permission";
     Properties_ :=
       {| FunctionName := Fn_GetAtt (toString normalizedFnName ++ "LambdaFunction") "Arn";
          Action := "lambda:InvokeFunction";
          Principal := "sns.amazonaws.com";
          SourceArn := Fn_Join ":" [Lit (str "arn:aws:sns"); Ref "AWS::Region";
                                    Ref "AWS::AccountId"; Lit topicName] |} |}.

(** [addEventPermission], on the [Resources] map of the compiled template. *)
Definition addEventPermission (Resources : gmap string Resource)
    (fnName : string) (fnDef : FunctionDefinition) (topicName : TopicBinding)
  : result (gmap string Resource) :=
  let normalizedFnName := _normalize (str fnName) in
  let topicName := topic_of topicName in
  match _normalizeTopicName topicName with
  | TypeError e => TypeError e
  | Ok normalizedTopicName =>
      Ok (<[permRef_of normalizedFnName normalizedTopicName
            := permission_of normalizedFnName topicName]> Resources)
  end.

(** ** Remote requests *)

Module Sub.
(** An entry of [resp.Subscriptions]. *)
Record t : Type := {
  SubscriptionArn : string;
  Protocol : jsvalue;
  Endpoint : jsvalue
}.
End Sub.

Module Api.
(** An entry of [res.items]. *)
Record t : Type := { name : string; id : jsvalue }.
End Api.

Module Info.
(** The object [_getSubscriptionInfo] resolves to. *)
Record t : Type := {
  FunctionArn : string;
  TopicArn : string;
  SubscriptionArn : jsvalue;
  Endpoint : jsvalue
}.
End Info.

(** [provider.request(service, method, params, ...)]: method and params. *)
Inductive call : Type :=
| getFunction (FunctionName : string)
| listSubscriptionsByTopic (TopicArn : string)
| subscribe (TopicArn : string) (Protocol Endpoint : jsvalue)
| unsubscribe (SubscriptionArn : jsvalue)
| setSubscriptionAttributes (AttributeName : string) (SubscriptionArn : jsvalue)
    (AttributeValue : json_text)
| getRestApis.

(** What the plugin reads of each response: [fn.Configuration.FunctionArn],
    [resp.Subscriptions], [response.SubscriptionArn], [res.items]. *)
Definition reply (c : call) : Type :=
  match c with
  | getFunction _ => string
  | listSubscriptionsByTopic _ => list Sub.t
  | subscribe _ _ _ => jsvalue
  | getRestApis => list Api.t
  | unsubscribe _ => unit
  | setSubscriptionAttributes _ _ _ => unit
  end.

Definition is_subscribe (c : call) : bool :=
  match c with subscribe _ _ _ => true | _ => false end.

Definition is_unsubscribe (c : call) : bool :=
  match c with unsubscribe _ => true | _ => false end.

Definition is_setSubscriptionAttributes (c : call) : bool :=
  match c with setSubscriptionAttributes _ _ _ => true | _ => false end.

(** The requests that change the remote state. *)
Definition mutating (c : call) : bool :=
  is_subscribe c || is_unsubscribe c || is_setSubscriptionAttributes c.

(** ** Promise-returning code *)

(** A computation that logs, waits, issues requests and returns; the code
    between two requests throws nowhere on the values modelled here. *)
Inductive prog (A : Type) : Type :=
| Ret (a : A)
| Log (msg : string) (k : prog A)
| Delay (ms : Z) (k : prog A)
| Request (c : call) (stage region : jsvalue) (k : reply c -> prog A).
Arguments Ret {A} a.
Arguments Log {A} msg k.
Arguments Delay {A} ms k.
Arguments Request {A} c stage region k.

(** [p.then(f)]. *)
Fixpoint bind {A B : Type} (p : prog A) (f : A -> prog B) : prog B :=
  match p with
  | Ret a => f a
  | Log msg k => Log msg (bind k f)
  | Delay ms k => Delay ms (bind k f)
  | Request c st rg k => Request c st rg (fun r => bind (k r) f)
  end.

Notation "'let!' x ':=' p 'in' q" := (bind p (fun x => q))
  (at level 10, x name, p at level 100, q at level 200).

(** [this.provider.request(..., this._opts.stage, this._opts.region)]. *)
Definition request (self : Plugin) (c : call) : prog (reply c) :=
  Request c (stage (_opts self)) (region (_opts self)) Ret.

(** What an action's promise is fulfilled with. *)
Inductive fulfilment : Type :=
| nothing
| message (s : string)
| response.

Module Attr.
(** [subscriptionAttrs]: the attribute to set on a subscription. *)
Record t : Type := { name : string; value : json }.
End Attr.

(** ** The actions *)

(** [_setSubscriptionAttributes]. *)
Definition _setSubscriptionAttributes (self : Plugin)
    (subscriptionArn : jsvalue) (attribute : Attr.t) : prog fulfilment :=
  if negb (truthy subscriptionArn) then Ret (message "Subscription ARN was empty")
  else
    let value := JObject [("healthyRetryPolicy", Attr.value attribute)] in
    let params := setSubscriptionAttributes (Attr.name attribute) subscriptionArn
                    (JSON_stringify value) in
    let! _ := request self params in Ret response.

(** The predicate [_getSubscriptionInfo] hands to [_.find], operators grouped
    as JavaScript groups them: [&&] binds tighter than [||]. *)
Definition is_existing (protocol httpEndpoint : jsvalue) (fnArn : string)
    (sub : Sub.t) : bool :=
  if negb (indexOf (toLowerCase (Sub.SubscriptionArn sub)) "pending" =? -1) then false
  else
    strict_eq (Sub.Protocol sub) protocol
    || (truthy (str "lambda")
        && (strict_eq (Sub.Endpoint sub) httpEndpoint
            || strict_eq (Sub.Endpoint sub) (str fnArn))).

(** [region], [acctID] and [topicArn] as [_getSubscriptionInfo] derives them. *)
Definition region_of (fnArn : string) : jsvalue := at_index (split ":" fnArn) 3.
Definition acctID_of (fnArn : string) : jsvalue := at_index (split ":" fnArn) 4.

Definition topicArn_of (fnArn : string) (topicName : jsvalue) : string :=
  "arn:aws:sns:" ++ toString (region_of fnArn) ++ ":" ++ toString (acctID_of fnArn)
  ++ ":" ++ toString topicName.

(** The object returned once the subscriptions are listed; [existing] is the
    found entry, or the empty object. *)
Definition info_of (fnArn topicArn : string) (existing : option Sub.t) : Info.t :=
  {| Info.FunctionArn := fnArn;
     Info.TopicArn := topicArn;
     Info.SubscriptionArn :=
       match existing with Some sub => str (Sub.SubscriptionArn sub) | None => undefined end;
     Info.Endpoint :=
       match existing with Some sub => Sub.Endpoint sub | None => undefined end |}.

(** [_getSubscriptionInfo]. *)
Definition _getSubscriptionInfo (self : Plugin) (fnDef : FunctionDefinition)
    (topicName protocol httpEndpoint : jsvalue) : prog Info.t :=
  let! fnArn := request self (getFunction (name fnDef)) in
  let topicArn := topicArn_of fnArn topicName in
  Log ("Function ARN: " ++ fnArn)
   (Log ("Topic ARN: " ++ topicArn)
     (let! resp := request self (listSubscriptionsByTopic topicArn) in
      let existing := List.find (is_existing protocol httpEndpoint fnArn) resp in
      Ret (info_of fnArn topicArn existing))).

(** [_getRestApiId]. *)
Definition _getRestApiId (self : Plugin) : prog jsvalue :=
  let apiName := getApiGatewayName self in
  let! res := request self getRestApis in
  let api := List.find (fun item => String.eqb apiName (Api.name item)) res in
  Ret (match api with Some a => Api.id a | None => null end).

(** [_getFunctionEndpoint]. *)
Definition _getFunctionEndpoint (self : Plugin) (fnDef : FunctionDefinition)
  : prog jsvalue :=
  let httpEv :=
    List.find (fun ev => match http ev with Some _ => true | None => false end)
      (events fnDef) in
  let apiPath :=
    match httpEv with
    | Some ev => match http ev with Some h => path h | None => undefined end
    | None => null
    end in
  let! id := _getRestApiId self in
  if truthy id && truthy apiPath then
    Ret (str (INVOKE_URL id (js_or (region (_opts self)) (str DEFAULT_REGION))
                (stage (_opts self)) apiPath))
  else Ret null.

(** [subscriptionAttrs] and [protocol] as [subscribeFunction] reads them off
    the binding. *)
Definition subscriptionAttrs_of (topicName : TopicBinding) : option Attr.t :=
  match topicName with
  | object o =>
      match DeliveryPolicy o with
      | Some policy => Some {| Attr.name := DELIVERY_POLICY_ATTR; Attr.value := policy |}
      | None => None
      end
  | bare _ => None
  end.

Definition protocol_of (topicName : TopicBinding) : jsvalue :=
  match topicName with
  | object o => if truthy (Protocol o) then Protocol o else str "lambda"
  | bare _ => str "lambda"
  end.

(** A subscribe response that only announces a confirmation. *)
Definition pending_confirmation (SubscriptionArn : jsvalue) : bool :=
  negb (indexOf (toLowerCase (toString SubscriptionArn)) "pending confirmation" =? -1).

(** The callback [subscribeFunction] runs on the subscribe response. *)
Definition subscribed (self : Plugin) (fnDef : FunctionDefinition)
    (topicName protocol : jsvalue) (subscriptionAttrs : option Attr.t)
    (info : Info.t) (SubscriptionArn : jsvalue) : prog fulfilment :=
  Log ("Function " ++ Info.FunctionArn info ++ " is now subscribed to " ++ Info.TopicArn info)
   (match subscriptionAttrs with
    | Some attrs =>
        if truthy SubscriptionArn then
          if pending_confirmation SubscriptionArn then
            Log "Subscription is pending, resubscribing, retrying in 10 seconds"
             (Delay 10000
               (let! newInfo := _getSubscriptionInfo self fnDef topicName protocol undefined in
                Log ("Setting subscription attributes on: "
                     ++ toString (Info.SubscriptionArn newInfo))
                  (_setSubscriptionAttributes self (Info.SubscriptionArn newInfo) attrs)))
          else
            Log "Setting subscription attributes"
              (_setSubscriptionAttributes self SubscriptionArn attrs)
        else Ret nothing
    | None => Ret nothing
    end).

(** The callback [subscribeFunction] runs on the resolved subscription. *)
Definition resolved (self : Plugin) (fnDef : FunctionDefinition)
    (topicName protocol : jsvalue) (subscriptionAttrs : option Attr.t)
    (fnEndpoint : jsvalue) (info : Info.t) : prog fulfilment :=
  let endpoint := js_or fnEndpoint (str (Info.FunctionArn info)) in
  if truthy (Info.SubscriptionArn info) then
    Log ("Function " ++ Info.FunctionArn info ++ " is already subscribed to "
         ++ Info.TopicArn info)
     (match subscriptionAttrs with
      | Some attrs =>
          Log "Setting subscription attributes"
            (_setSubscriptionAttributes self (Info.SubscriptionArn info) attrs)
      | None => Ret nothing
      end)
  else
    let params := subscribe (Info.TopicArn info) protocol endpoint in
    let! SubscriptionArn := request self params in
    subscribed self fnDef topicName protocol subscriptionAttrs info SubscriptionArn.

(** [subscribeFunction]. *)
Definition subscribeFunction (self : Plugin) (fnName : string)
    (fnDef : FunctionDefinition) (topicName : TopicBinding) : prog fulfilment :=
  let subscriptionAttrs := subscriptionAttrs_of topicName in
  let protocol := protocol_of topicName in
  let topicName := topic_of topicName in
  if noDeploy (_opts self) then
    Log ("Not subscribing " ++ name fnDef ++ " to " ++ toString topicName
         ++ " because of the noDeploy flag")
      (Ret nothing)
  else
    Log ("Need to subscribe " ++ name fnDef ++ " to " ++ toString topicName)
     (let! fnEndpoint := _getFunctionEndpoint self fnDef in
      let! info := _getSubscriptionInfo self fnDef topicName protocol
                     (js_or fnEndpoint null) in
      resolved self fnDef topicName protocol subscriptionAttrs fnEndpoint info).

(** [unsubscribeFunction]. *)
Definition unsubscribeFunction (self : Plugin) (fnName : string)
    (fnDef : FunctionDefinition) (topicName : TopicBinding) : prog fulfilment :=
  let topicName := topic_of topicName in
  Log ("Need to unsubscribe " ++ name fnDef ++ " from " ++ toString topicName)
   (let! info := _getSubscriptionInfo self fnDef topicName undefined undefined in
    if negb (truthy (Info.SubscriptionArn info)) then
      Log ("Function " ++ Info.FunctionArn info ++ " is not subscribed to "
           ++ Info.TopicArn info)
        (Ret nothing)
    else
      let params := unsubscribe (Info.SubscriptionArn info) in
      let! _ := request self params in
      Log ("Function " ++ Info.FunctionArn info ++ " is no longer subscribed to "
           ++ Info.TopicArn info ++ " (deleted " ++ toString (Info.SubscriptionArn info) ++ ")")
        (Ret nothing)).

(** ** Running an action against a remote *)

Inductive event : Type :=
| Logged (msg : string)
| Waited (ms : Z)
| Requested (c : call) (stage region : jsvalue).

(** How a promise settles: fulfilled with a value, or rejected by the
    request that failed. *)
Inductive settled (A : Type) : Type :=
| Fulfilled (a : A)
| Rejected (failed : call).
Arguments Fulfilled {A} a.
Arguments Rejected {A} failed.

Record Run (World A : Type) : Type := {
  outcome : settled A;
  trace : list event;
  after : World
}.
Arguments outcome {World A} r.
Arguments trace {World A} r.
Arguments after {World A} r.

(** The requests of a trace, in the order issued. *)
Fixpoint calls (tr : list event) : list call :=
  match tr with
  | [] => []
  | Requested c _ _ :: tr' => c :: calls tr'
  | _ :: tr' => calls tr'
  end.

Definition mutations (tr : list event) : list call := List.filter mutating (calls tr).

Section Running.
Context {World : Type}.

(** The remote: it answers a request or fails it, and moves on. *)
Variable remote : World -> forall c : call, option (reply c) * World.

Fixpoint run {A : Type} (p : prog A) (w : World) : Run World A :=
  match p with
  | Ret a => {| outcome := Fulfilled a; trace := []; after := w |}
  | Log msg k =>
      let r := run k w in
      {| outcome := outcome r; trace := Logged msg :: trace r; after := after r |}
  | Delay ms k =>
      let r := run k w in
      {| outcome := outcome r; trace := Waited ms :: trace r; after := after r |}
  | Request c st rg k =>
      match remote w c with
      | (Some answer, w') =>
          let r := run (k answer) w' in
          {| outcome := outcome r; trace := Requested c st rg :: trace r; after := after r |}
      | (None, w') =>
          {| outcome := Rejected c; trace := [Requested c st rg]; after := w' |}
      end
  end.

(** What [p.then(f)] does once [p] has run to [r]. *)
Definition and_then {A B : Type} (r : Run World A) (f : A -> prog B) : Run World B :=
  match outcome r with
  | Fulfilled a =>
      let r' := run (f a) (after r) in
      {| outcome := outcome r'; trace := trace r ++ trace r'; after := after r' |}
  | Rejected c => {| outcome := Rejected c; trace := trace r; after := after r |}
  end.

End Running.

(** ** Requests an action can issue, whatever the remote answers *)

(** [issues P n p]: along any path of [p], at most [n] requests satisfy [P]. *)
Inductive issues (P : call -> bool) {A : Type} : nat -> prog A -> Prop :=
| issues_Ret n a : issues P n (Ret a)
| issues_Log n msg k : issues P n k -> issues P n (Log msg k)
| issues_Delay n ms k : issues P n k -> issues P n (Delay ms k)
| issues_skip n c st rg k :
    P c = false -> (forall answer, issues P n (k answer)) ->
    issues P n (Request c st rg k)
| issues_count n c st rg k :
    (forall answer, issues P n (k answer)) ->
    issues P (S n) (Request c st rg k).

(** ** The event iterator *)

(** [if (evt.externalSNS)]: an object is truthy, a string when not empty. *)
Definition truthy_binding (b : TopicBinding) : bool :=
  match b with
  | bare s => truthy (str s)
  | object _ => true
  end.

(** The binding of an event the iterator acts on. *)
Definition selected (evt : Event) : option TopicBinding :=
  match externalSNS evt with
  | Some b => if truthy_binding b then Some b else None
  | None => None
  end.

(** A synchronous action on a state [S]: the state it leaves, or the
    TypeError it throws before changing it. *)
Definition action (S : Type) : Type :=
  string -> FunctionDefinition -> TopicBinding -> S -> result S.

(** The inner [_.each] of [_loopEvents], over the events of one function.
    [fn] is [None] for an action that is [undefined], on which [fn.call]
    throws.  The result is the state reached and the error thrown, if any. *)
Fixpoint each_event {S : Type} (fn : option (action S)) (fnName : string)
    (fnDef : FunctionDefinition) (evts : list Event) (s : S) : S * option string :=
  match evts with
  | [] => (s, None)
  | evt :: rest =>
      match selected evt with
      | Some b =>
          match fn with
          | None => (s, Some "Cannot read properties of undefined (reading 'call')")
          | Some f =>
              match f fnName fnDef b s with
              | Ok s' => each_event fn fnName fnDef rest s'
              | TypeError e => (s, Some e)
              end
          end
      | None => each_event fn fnName fnDef rest s
      end
  end.

(** [_loopEvents], over [service.functions] in the order of its keys. *)
Fixpoint _loopEvents {S : Type} (fn : option (action S))
    (functions : list (string * FunctionDefinition)) (s : S) : S * option string :=
  match functions with
  | [] => (s, None)
  | (fnName, fnDef) :: rest =>
      match each_event fn fnName fnDef (events fnDef) s with
      | (s', None) => _loopEvents fn rest s'
      | (s', Some e) => (s', Some e)
      end
  end.

(** The hook [deploy:compileEvents]: [_loopEvents] bound to
    [addEventPermission], on the [Resources] of the compiled template. *)
Definition compileEvents (functions : list (string * FunctionDefinition))
    (Resources : gmap string Resource) : gmap string Resource * option string :=
  _loopEvents
    (Some (fun fnName fnDef topicName R => addEventPermission R fnName fnDef topicName))
    functions Resources.

(** The hook [info:info]: [_loopEvents] bound to [this.getInfo], a method
    the class does not define. *)
Definition info_hook (functions : list (string * FunctionDefinition)) : option string :=
  snd (_loopEvents (S := unit) None functions tt).

(** The calls the iterator makes: function name, definition and binding. *)
Definition invocations (functions : list (string * FunctionDefinition))
  : list (string * FunctionDefinition * TopicBinding) :=
  List.flat_map
    (fun f =>
       List.flat_map
         (fun evt => match selected evt with
                     | Some b => [(fst f, snd f, b)]
                     | None => []
                     end)
         (events (snd f)))
    functions.

(** One call after the other from a state, up to the first that throws. *)
Fixpoint each_call {S : Type} (f : action S)
    (l : list (string * FunctionDefinition * TopicBinding)) (s : S) : S * option string :=
  match l with
  | [] => (s, None)
  | (fnName, fnDef, b) :: rest =>
      match f fnName fnDef b s with
      | Ok s' => each_call f rest s'
      | TypeError e => (s, Some e)
      end
  end.

(** The resource one call of [addEventPermission] writes, and its key; the
    TypeError it throws instead on a binding without a topic name. *)
Definition permission_entry (c : string * FunctionDefinition * TopicBinding)
  : result (string * Resource) :=
  let normalizedFnName := _normalize (str (fst (fst c))) in
  match _normalizeTopicName (topic_of (snd c)) with
  | Ok normalizedTopicName =>
      Ok (permRef_of normalizedFnName normalizedTopicName,
          permission_of normalizedFnName (topic_of (snd c)))
  | TypeError e => TypeError e
  end.

(** The entries written by a run of calls, up to the first that throws. *)
Fixpoint entries (l : list (string * FunctionDefinition * TopicBinding))
  : list (string * Resource) * option string :=
  match l with
  | [] => ([], None)
  | c :: rest =>
      match permission_entry c with
      | Ok kv => (kv :: fst (entries rest), snd (entries rest))
      | TypeError e => ([], Some e)
      end
  end.

(** Writing entries into a template, one after the other. *)
Definition write_all (kvs : list (string * Resource)) (Resources : gmap string Resource)
  : gmap string Resource :=
  List.fold_left (fun R kv => <[fst kv := snd kv]> R) kvs Resources.

(** The plugin with its [noDeploy] option set to [b]. *)
Definition with_noDeploy (b : bool) (self : Plugin) : Plugin :=
  {| _opts := {| noDeploy := b; stage := stage (_opts self); region := region (_opts self) |};
     getApiGatewayName := getApiGatewayName self |}.

(** ** Remotes that list what they confirm *)

(** The states a remote moves through on requests other than [unsubscribe]. *)
Inductive reaches {World : Type}
    (remote : World -> forall c : call, option (reply c) * World)
  : World -> World -> Prop :=
| reaches_refl (w : World) : reaches remote w w
| reaches_step (w w' : World) (c : call) :
    is_unsubscribe c = false ->
    reaches remote (snd (remote w c)) w' ->
    reaches remote w w'.

(** A remote that keeps its books as SNS does for a subscription it confirms
    at once.  [Listed w t s] says that in state [w] the subscription [s] is
    on record for the topic [t], and [Inv] is an invariant of the states:
    a subscription answered with an identifier that does not contain
    "pending" is on record with that identifier, protocol and endpoint; it
    stays on record until something is unsubscribed; what is on record is
    listed; listed identifiers are not empty; and no request changes the
    ARN of a function. *)
Record lists_confirmed {World : Type}
    (remote : World -> forall c : call, option (reply c) * World)
    (Inv : World -> Prop) (Listed : World -> string -> Sub.t -> Prop) : Prop := {
  inv_step : forall w c, Inv w -> Inv (snd (remote w c));
  listed_subscribe :
    forall w w' t p e a,
      Inv w -> remote w (subscribe t p e) = (Some (str a), w') ->
      indexOf (toLowerCase a) "pending" = -1 ->
      Listed w' t {| Sub.SubscriptionArn := a; Sub.Protocol := p; Sub.Endpoint := e |};
  listed_step :
    forall w c t s,
      is_unsubscribe c = false -> Listed w t s -> Listed (snd (remote w c)) t s;
  listed_lists :
    forall w w' t s subs,
      Listed w t s -> remote w (listSubscriptionsByTopic t) = (Some subs, w') -> In s subs;
  listed_arns :
    forall w w' t s subs,
      Inv w -> remote w (listSubscriptionsByTopic t) = (Some subs, w') -> In s subs ->
      Sub.SubscriptionArn s <> "";
  function_step :
    forall w c n,
      fst (remote (snd (remote w c)) (getFunction n)) = fst (remote w (getFunction n))
}.

(** ** A remote to run scenarios against

    One account: its functions, its REST APIs and its subscriptions.  A
    lambda subscription is confirmed at once; any other answers
    "pending confirmation", is listed as [PendingConfirmation], and is
    confirmed by the time a function is next looked up. *)

Record Account : Type := {
  lambdas : list (string * string);
  restApis : list Api.t;
  confirmed : list (string * Sub.t);
  awaiting : list (string * Sub.t)
}.

Definition on_topic (topicArn : string) (l : list (string * Sub.t)) : list Sub.t :=
  List.map snd (List.filter (fun e => String.eqb (fst e) topicArn) l).

Definition as_pending (sub : Sub.t) : Sub.t :=
  {| Sub.SubscriptionArn := "PendingConfirmation";
     Sub.Protocol := Sub.Protocol sub;
     Sub.Endpoint := Sub.Endpoint sub |}.

Definition aws (w : Account) (c : call) : option (reply c) * Account :=
  match c as c' return option (reply c') * Account with
  | getFunction n =>
      (option_map snd (List.find (fun f => String.eqb (fst f) n) (lambdas w)),
       {| lambdas := lambdas w; restApis := restApis w;
          confirmed := (confirmed w ++ awaiting w)%list; awaiting := [] |})
  | listSubscriptionsByTopic t =>
      (Some (on_topic t (confirmed w) ++ List.map as_pending (on_topic t (awaiting w)))%list,
       w)
  | subscribe t p e =>
      let arn := t ++ ":" ++ pretty (length (confirmed w) + length (awaiting w))%nat in
      let sub := {| Sub.SubscriptionArn := arn; Sub.Protocol := p; Sub.Endpoint := e |} in
      if strict_eq p (str "lambda") then
        (Some (str arn),
         {| lambdas := lambdas w; restApis := restApis w;
            confirmed := (confirmed w ++ [(t, sub)])%list; awaiting := awaiting w |})
      else
        (Some (str "pending confirmation"),
         {| lambdas := lambdas w; restApis := restApis w;
            confirmed := confirmed w; awaiting := (awaiting w ++ [(t, sub)])%list |})
  | unsubscribe a =>
      (Some tt,
       {| lambdas := lambdas w; restApis := restApis w;
          confirmed :=
            List.filter (fun e => negb (strict_eq (str (Sub.SubscriptionArn (snd e))) a))
              (confirmed w);
          awaiting := awaiting w |})
  | setSubscriptionAttributes _ _ _ => (Some tt, w)
  | getRestApis => (Some (restApis w), w)
  end.

Definition notify_arn : string :=
  "arn:aws:lambda:us-east-1:111122223333:function:notify-dev".

Definition orders_arn : string := "arn:aws:sns:us-east-1:111122223333:orders".

(** The function of the end-to-end scenario: one [externalSNS] event. *)
Definition notify : FunctionDefinition :=
  {| name := "notify-dev";
     events := [{| externalSNS := Some (bare "orders"); http := None |}] |}.

(** The same function behind an HTTP route. *)
Definition notify_http : FunctionDefinition :=
  {| name := "notify-dev";
     events := [{| externalSNS := None; http := Some {| path := str "notify" |} |}] |}.

Definition plugin : Plugin :=
  {| _opts := {| noDeploy := false; stage := str "dev"; region := str "us-east-1" |};
     getApiGatewayName := "dev-service" |}.

Definition fresh_account : Account :=
  {| lambdas := [("notify-dev", notify_arn)];
     restApis := [{| Api.name := "dev-service"; Api.id := str "a1b2c3" |}];
     confirmed := [];
     awaiting := [] |}.

Definition retry_policy : json :=
  JObject [("numRetries", JNumber 5); ("backoffFunction", JString "linear")].

Definition orders_with_policy : TopicBinding :=
  object {| topic := str "orders"; DeliveryPolicy := Some retry_policy;
            Protocol := undefined |}.

Definition orders_https : TopicBinding :=
  object {| topic := str "orders"; DeliveryPolicy := Some retry_policy;
            Protocol := str "https" |}.

Definition account_with (subs : list Sub.t) : Account :=
  {| lambdas := lambdas fresh_account;
     restApis := restApis fresh_account;
     confirmed := List.map (fun sub => (orders_arn, sub)) subs;
     awaiting := [] |}.

(** A subscription of another function to the topic. *)
Definition other_subscription : Sub.t :=
  {| Sub.SubscriptionArn := "arn:aws:sns:us-east-1:111122223333:orders:0001";
     Sub.Protocol := str "lambda";
     Sub.Endpoint := str "arn:aws:lambda:us-east-1:111122223333:function:other-dev" |}.

(** An e-mail subscription that carries the function's ARN as its endpoint. *)
Definition email_subscription : Sub.t :=
  {| Sub.SubscriptionArn := "arn:aws:sns:us-east-1:111122223333:orders:0002";
     Sub.Protocol := str "email";
     Sub.Endpoint := str notify_arn |}.

(** An HTTPS subscription of the function's invoke URL. *)
Definition https_subscription : Sub.t :=
  {| Sub.SubscriptionArn := "arn:aws:sns:us-east-1:111122223333:orders:0003";
     Sub.Protocol := str "https";
     Sub.Endpoint := str "https://a1b2c3.execute-api.us-east-1.amazonaws.com/dev/notify" |}.

Definition no_topic : TopicBinding :=
  object {| topic := undefined; DeliveryPolicy := None; Protocol := undefined |}.

Definition notify_subscription : string := "arn:aws:sns:us-east-1:111122223333:orders:0".

Definition notify_url : string :=
  "https://a1b2c3.execute-api.us-east-1.amazonaws.com/dev/notify".

(** The account once [notify-dev] is subscribed to "orders". *)
Definition subscribed_account : Account :=
  after (run aws (subscribeFunction plugin "notify" notify orders_with_policy) fresh_account).

(** The account once the HTTPS subscription of [notify_url] is requested. *)
Definition awaiting_account : Account :=
  {| lambdas := lambdas fresh_account;
     restApis := restApis fresh_account;
     confirmed := [];
     awaiting := [(orders_arn,
                   {| Sub.SubscriptionArn := notify_subscription;
                      Sub.Protocol := str "https";
                      Sub.Endpoint := str notify_url |})] |}.

(** The states of [aws] whose subscriptions all have an identifier. *)
Definition well_listed (w : Account) : Prop :=
  forall e, In e (confirmed w ++ awaiting w)%list -> Sub.SubscriptionArn (snd e) <> "".

(** A subscription on the books of [aws] as confirmed. *)
Definition confirmed_in (w : Account) (t : string) (s : Sub.t) : Prop :=
  In (t, s) (confirmed w).

(** An HTTPS binding without a delivery policy. *)
Definition orders_https_plain : TopicBinding :=
  object {| topic := str "orders"; DeliveryPolicy := None; Protocol := str "https" |}.

(** A binding with a delivery policy and no topic name. *)
Definition policy_only : TopicBinding :=
  object {| topic := undefined; DeliveryPolicy := Some retry_policy;
            Protocol := undefined |}.

(** A listed entry that carries no protocol, with an invoke URL as endpoint. *)
Definition protocolless_subscription : Sub.t :=
  {| Sub.SubscriptionArn := "arn:aws:sns:us-east-1:111122223333:orders:0004";
     Sub.Protocol := undefined;
     Sub.Endpoint := str "https://a1b2c3.execute-api.us-east-1.amazonaws.com/dev/notify" |}.

(** A remote on which the HTTPS subscription is never confirmed. *)
Definition unconfirmed (w : unit) (c : call) : option (reply c) * unit :=
  match c as c' return option (reply c') * unit with
  | getFunction _ => (Some notify_arn, w)
  | listSubscriptionsByTopic _ => (Some [as_pending https_subscription], w)
  | subscribe _ _ _ => (Some (str "pending confirmation"), w)
  | getRestApis => (Some (restApis fresh_account), w)
  | unsubscribe _ => (None, w)
  | setSubscriptionAttributes _ _ _ => (None, w)
  end.

(** A remote that fails every request. *)
Definition offline (w : unit) (c : call) : option (reply c) * unit := (None, w).

(** Two functions of one service, the second with a route and two topics. *)
Definition audit : FunctionDefinition :=
  {| name := "audit-dev";
     events := [{| externalSNS := None; http := Some {| path := str "audit" |} |};
                {| externalSNS := Some (bare "orders"); http := None |};
                {| externalSNS := Some (bare ""); http := None |};
                {| externalSNS := Some orders_with_policy; http := None |}] |}.

Definition service : list (string * FunctionDefinition) :=
  [("notify", notify); ("audit", audit)].

(** A service whose second function has a binding without a topic name. *)
Definition broken : FunctionDefinition :=
  {| name := "broken-dev";
     events := [{| externalSNS := Some no_topic; http := None |};
                {| externalSNS := Some (bare "late"); http := None |}] |}.

Definition broken_service : list (string * FunctionDefinition) :=
  [("notify", notify); ("broken", broken); ("audit", audit)].

(** * Properties *)

(** ** Sequencing *)

Section Sequencing.
Context {World : Type}.
Variable remote : World -> forall c : call, option (reply c) * World.

Lemma run_bind {A B : Type} (p : prog A) (f : A -> prog B) (w : World) :
  run remote (bind p f) w = and_then remote (run remote p w) f.
Proof.
  revert w. unfold and_then.
  induction p as [a | msg k IH | ms k IH | c st rg k IH]; intros w; simpl.
  - destruct (run remote (f a) w); reflexivity.
  - rewrite IH. destruct (outcome (run remote k w)); reflexivity.
  - rewrite IH. destruct (outcome (run remote k w)); reflexivity.
  - destruct (remote w c) as [[answer |] w']; [| reflexivity].
    rewrite IH. destruct (outcome (run remote (k answer) w')); reflexivity.
Qed.

Lemma and_then_fulfilled {A B : Type} (r : Run World A) (f : A -> prog B) (a : A) :
  outcome r = Fulfilled a ->
  and_then remote r f
  = {| outcome := outcome (run remote (f a) (after r));
       trace := trace r ++ trace (run remote (f a) (after r));
       after := after (run remote (f a) (after r)) |}.
Proof. intros H. unfold and_then. rewrite H. reflexivity. Qed.

End Sequencing.

(** ** Strings *)

Example normalize_my_topic : _normalizeTopicName (str "my-topic!") = Ok (str "Mytopic").
Proof. reflexivity. Qed.

Example split_function_arn :
  split ":" "arn:aws:lambda:us-east-1:111122223333:function:notify-dev"
  = ["arn"; "aws"; "lambda"; "us-east-1"; "111122223333"; "function"; "notify-dev"].
Proof. reflexivity. Qed.

Example indexOf_pending : indexOf (toLowerCase "PendingConfirmation") "pending" = 0.
Proof. reflexivity. Qed.

Example indexOf_absent : indexOf "arn:aws:sns:us-east-1:1:orders:7" "pending" = -1.
Proof. reflexivity. Qed.

Lemma truthy_str (v : jsvalue) :
  truthy v = true -> exists s, v = str s /\ s <> "".
Proof.
  destruct v as [| | s]; simpl; try discriminate.
  intros H. exists s. split; [reflexivity |].
  intros ->. discriminate.
Qed.

Lemma strict_eq_true (a b : jsvalue) : strict_eq a b = true <-> a = b.
Proof.
  destruct a as [| | s], b as [| | t]; simpl; split; try congruence; try reflexivity.
  - intros H. apply String.eqb_eq in H. congruence.
  - intros H. apply String.eqb_eq. congruence.
Qed.

Lemma startsWith_app (s p q : string) :
  startsWith s (p ++ q) = true -> startsWith s p = true.
Proof.
  revert s. induction p as [| a p IH]; intros s; simpl; [reflexivity |].
  destruct s as [| b t]; [discriminate |].
  rewrite !andb_true_iff. intros [Hab Hrest]. split; [exact Hab | apply IH, Hrest].
Qed.

Lemma indexOf_from_range (s pat : string) (i : Z) :
  0 <= i -> indexOf_from s pat i = -1 \/ i <= indexOf_from s pat i.
Proof.
  revert i. induction s as [| c t IH]; intros i Hi; simpl.
  - destruct (startsWith "" pat); [right; lia | left; reflexivity].
  - destruct (startsWith (String c t) pat); [right; lia |].
    destruct (IH (i + 1)) as [H | H]; [lia | left; exact H | right; lia].
Qed.

Lemma indexOf_from_app (s p q : string) (i j : Z) :
  0 <= i -> 0 <= j ->
  indexOf_from s (p ++ q) i <> -1 -> indexOf_from s p j <> -1.
Proof.
  revert i j. induction s as [| c t IH]; intros i j Hi Hj; simpl.
  - destruct (startsWith "" (p ++ q)) eqn:E; [| congruence].
    rewrite (startsWith_app _ _ _ E). lia.
  - destruct (startsWith (String c t) (p ++ q)) eqn:E.
    + rewrite (startsWith_app _ _ _ E). lia.
    + intros H. destruct (startsWith (String c t) p); [lia |].
      apply (IH (i + 1) (j + 1)); [lia | lia | exact H].
Qed.

Lemma startsWith_prefix (pat b : string) : startsWith (pat ++ b) pat = true.
Proof.
  induction pat as [| c p IH]; simpl; [reflexivity |].
  rewrite Ascii.eqb_refl. exact IH.
Qed.

Lemma indexOf_from_eq (s pat : string) (i : Z) :
  indexOf_from s pat i
  = if startsWith s pat then i
    else match s with
         | EmptyString => -1
         | String _ t => indexOf_from t pat (i + 1)
         end.
Proof. destruct s; reflexivity. Qed.

Lemma indexOf_from_occurs (a pat b : string) (i : Z) :
  0 <= i -> indexOf_from (a ++ pat ++ b) pat i <> -1.
Proof.
  revert i. induction a as [| c t IH]; intros i Hi; rewrite indexOf_from_eq.
  - change ("" ++ pat ++ b) with (pat ++ b). rewrite startsWith_prefix. lia.
  - destruct (startsWith (String c t ++ pat ++ b) pat); [lia |].
    apply IH. lia.
Qed.

(** [indexOf] finds a pattern wherever it occurs. *)
Lemma indexOf_occurs (a pat b : string) : indexOf (a ++ pat ++ b) pat <> -1.
Proof. apply indexOf_from_occurs. lia. Qed.

(** An identifier that announces a pending confirmation contains "pending". *)
Lemma pending_confirmation_pending (s : string) :
  indexOf (toLowerCase s) "pending confirmation" <> -1 ->
  indexOf (toLowerCase s) "pending" <> -1.
Proof.
  unfold indexOf.
  change "pending confirmation" with ("pending" ++ " confirmation").
  apply indexOf_from_app; lia.
Qed.

Lemma split_nonempty (sep : ascii) (s : string) : split sep s <> [].
Proof.
  destruct s as [| c t]; simpl; [discriminate |].
  destruct (Ascii.eqb c sep); [discriminate |].
  destruct (split sep t); discriminate.
Qed.

(** Joining the pieces of [split] with the separator gives the string back. *)
Lemma concat_split (sep : ascii) (s : string) :
  String.concat (String sep EmptyString) (split sep s) = s.
Proof.
  induction s as [| c t IH]; simpl; [reflexivity |].
  pose proof (split_nonempty sep t) as Hne.
  destruct (Ascii.eqb_spec c sep) as [-> | Hc].
  - destruct (split sep t) as [| h r]; [contradiction |].
    rewrite <- IH. reflexivity.
  - destruct (split sep t) as [| h r]; [contradiction |].
    rewrite <- IH. destruct r; reflexivity.
Qed.

Lemma split_segment (sep : ascii) (a b : string) :
  free_of sep a = true ->
  split sep (a ++ String sep b) = a :: split sep b.
Proof.
  induction a as [| c t IH]; simpl.
  - intros _. rewrite Ascii.eqb_refl. reflexivity.
  - rewrite andb_true_iff, negb_true_iff. intros [Hc Ht].
    rewrite Hc, (IH Ht). reflexivity.
Qed.

(** ** Bounds on the requests of a program *)

Lemma issues_mono (P : call -> bool) {A : Type} (n m : nat) (p : prog A) :
  issues P n p -> (n <= m)%nat -> issues P m p.
Proof.
  intros H. revert m.
  induction H as [n a | n msg k _ IH | n ms k _ IH | n c st rg k Hc _ IH | n c st rg k _ IH];
    intros m Hm.
  - constructor.
  - constructor. apply IH, Hm.
  - constructor. apply IH, Hm.
  - apply issues_skip; [exact Hc |]. intros answer. apply IH, Hm.
  - destruct m as [| m]; [lia |].
    apply issues_count. intros answer. apply IH. lia.
Qed.

Lemma issues_bind (P : call -> bool) {A B : Type} (n m : nat)
    (p : prog A) (f : A -> prog B) :
  issues P n p -> (forall a, issues P m (f a)) -> issues P (n + m) (bind p f).
Proof.
  intros H Hf.
  induction H as [n a | n msg k _ IH | n ms k _ IH | n c st rg k Hc _ IH | n c st rg k _ IH];
    simpl.
  - apply issues_mono with (n := m); [apply Hf | lia].
  - constructor. exact IH.
  - constructor. exact IH.
  - apply issues_skip; [exact Hc | exact IH].
  - apply issues_count. exact IH.
Qed.

Lemma issues_weaken (P Q : call -> bool) {A : Type} (n : nat) (p : prog A) :
  (forall c, Q c = true -> P c = true) -> issues P n p -> issues Q n p.
Proof.
  intros HQP H.
  induction H as [n a | n msg k _ IH | n ms k _ IH | n c st rg k Hc _ IH | n c st rg k _ IH].
  - constructor.
  - constructor. exact IH.
  - constructor. exact IH.
  - apply issues_skip; [| exact IH].
    destruct (Q c) eqn:E; [| reflexivity]. rewrite (HQP c E) in Hc. discriminate.
  - apply issues_count. exact IH.
Qed.

Lemma issues_run {World : Type} (remote : World -> forall c : call, option (reply c) * World)
    (P : call -> bool) {A : Type} (n : nat) (p : prog A) (w : World) :
  issues P n p ->
  (length (List.filter P (calls (trace (run remote p w)))) <= n)%nat.
Proof.
  intros H. revert w.
  induction H as [n a | n msg k _ IH | n ms k _ IH | n c st rg k Hc _ IH | n c st rg k _ IH];
    intros w; simpl.
  - lia.
  - apply IH.
  - apply IH.
  - destruct (remote w c) as [[answer |] w']; simpl; rewrite Hc; [apply IH | simpl; lia].
  - destruct (remote w c) as [[answer |] w']; simpl.
    + specialize (IH answer w'). destruct (P c); simpl; lia.
    + destruct (P c); simpl; lia.
Qed.

Lemma issues_none_run {World : Type}
    (remote : World -> forall c : call, option (reply c) * World)
    (P : call -> bool) {A : Type} (p : prog A) (w : World) :
  issues P 0 p -> List.filter P (calls (trace (run remote p w))) = [].
Proof.
  intros H. apply (issues_run remote P 0 p w) in H.
  destruct (List.filter P (calls (trace (run remote p w)))); [reflexivity | simpl in H; lia].
Qed.

(** ** What the resolvers request, and what they resolve to *)

Ltac step_issues :=
  repeat lazymatch goal with
    | |- issues _ _ (Ret _) => apply issues_Ret
    | |- issues _ _ (Log _ _) => apply issues_Log
    | |- issues _ _ (Delay _ _) => apply issues_Delay
    | |- issues _ _ (Request _ _ _ _) => apply issues_skip; [reflexivity | intros ?]
    end.

Lemma getSubscriptionInfo_reads (self : Plugin) (fnDef : FunctionDefinition)
    (topicName protocol httpEndpoint : jsvalue) :
  issues mutating 0 (_getSubscriptionInfo self fnDef topicName protocol httpEndpoint).
Proof. unfold _getSubscriptionInfo, request. cbn [bind]. step_issues. Qed.

Lemma getFunctionEndpoint_reads (self : Plugin) (fnDef : FunctionDefinition) :
  issues mutating 0 (_getFunctionEndpoint self fnDef).
Proof.
  unfold _getFunctionEndpoint, _getRestApiId, request. cbn [bind]. step_issues.
  match goal with |- context [if ?b then _ else _] => destruct b end; step_issues.
Qed.

Lemma setSubscriptionAttributes_keeps (self : Plugin) (subscriptionArn : jsvalue)
    (attribute : Attr.t) :
  issues is_subscribe 0 (_setSubscriptionAttributes self subscriptionArn attribute).
Proof.
  unfold _setSubscriptionAttributes, request.
  destruct (truthy subscriptionArn); cbn [negb bind]; step_issues.
Qed.

Lemma mutating_is_subscribe (c : call) : is_subscribe c = true -> mutating c = true.
Proof. unfold mutating. intros ->. reflexivity. Qed.

Lemma mutating_is_unsubscribe (c : call) : is_unsubscribe c = true -> mutating c = true.
Proof. unfold mutating. intros ->. apply orb_true_iff. left. apply orb_true_r. Qed.

Lemma subscribed_keeps (self : Plugin) (fnDef : FunctionDefinition)
    (topicName protocol : jsvalue) (subscriptionAttrs : option Attr.t)
    (info : Info.t) (SubscriptionArn : jsvalue) :
  issues is_subscribe 0
    (subscribed self fnDef topicName protocol subscriptionAttrs info SubscriptionArn).
Proof.
  unfold subscribed. step_issues.
  destruct subscriptionAttrs as [attrs |]; [| step_issues].
  destruct (truthy SubscriptionArn); [| step_issues].
  destruct (pending_confirmation SubscriptionArn); step_issues.
  - apply (issues_bind is_subscribe 0 0).
    + apply (issues_weaken mutating); [exact mutating_is_subscribe |].
      apply getSubscriptionInfo_reads.
    + intros newInfo. step_issues. apply setSubscriptionAttributes_keeps.
  - apply setSubscriptionAttributes_keeps.
Qed.

(** The subscribe action issues at most one subscribe request, whatever the
    remote answers. *)
Lemma subscribeFunction_subscribes_once (self : Plugin) (fnName : string)
    (fnDef : FunctionDefinition) (topicName : TopicBinding) :
  issues is_subscribe 1 (subscribeFunction self fnName fnDef topicName).
Proof.
  unfold subscribeFunction.
  destruct (noDeploy (_opts self)); step_issues.
  apply (issues_bind is_subscribe 0 1).
  { apply (issues_weaken mutating); [exact mutating_is_subscribe |].
    apply getFunctionEndpoint_reads. }
  intros fnEndpoint.
  apply (issues_bind is_subscribe 0 1).
  { apply (issues_weaken mutating); [exact mutating_is_subscribe |].
    apply getSubscriptionInfo_reads. }
  intros info. unfold resolved.
  destruct (truthy (Info.SubscriptionArn info)).
  - apply issues_mono with (n := 0%nat); [| lia]. step_issues.
    destruct (subscriptionAttrs_of topicName); step_issues.
    apply setSubscriptionAttributes_keeps.
  - unfold request. cbn [bind]. apply issues_count. intros answer.
    apply subscribed_keeps.
Qed.

Section Resolving.
Context {World : Type}.
Variable remote : World -> forall c : call, option (reply c) * World.

(** The resolver's run when both of its requests are answered. *)
Lemma run_getSubscriptionInfo (self : Plugin) (fnDef : FunctionDefinition)
    (topicName protocol httpEndpoint : jsvalue) (w w1 w2 : World)
    (fnArn : string) (subs : list Sub.t) :
  remote w (getFunction (name fnDef)) = (Some fnArn, w1) ->
  remote w1 (listSubscriptionsByTopic (topicArn_of fnArn topicName)) = (Some subs, w2) ->
  run remote (_getSubscriptionInfo self fnDef topicName protocol httpEndpoint) w
  = {| outcome :=
         Fulfilled (info_of fnArn (topicArn_of fnArn topicName)
                      (List.find (is_existing protocol httpEndpoint fnArn) subs));
       trace :=
         [Requested (getFunction (name fnDef)) (stage (_opts self)) (region (_opts self));
          Logged ("Function ARN: " ++ fnArn);
          Logged ("Topic ARN: " ++ topicArn_of fnArn topicName);
          Requested (listSubscriptionsByTopic (topicArn_of fnArn topicName))
            (stage (_opts self)) (region (_opts self))];
       after := w2 |}.
Proof.
  intros H1 H2. unfold _getSubscriptionInfo, request. cbn [bind run].
  rewrite H1. cbn [bind run]. rewrite H2. reflexivity.
Qed.

(** The requests of the resolver once [getFunction] is answered. *)
Lemma getSubscriptionInfo_calls (self : Plugin) (fnDef : FunctionDefinition)
    (topicName protocol httpEndpoint : jsvalue) (w w1 : World) (fnArn : string) :
  remote w (getFunction (name fnDef)) = (Some fnArn, w1) ->
  calls (trace (run remote
                  (_getSubscriptionInfo self fnDef topicName protocol httpEndpoint) w))
  = [getFunction (name fnDef); listSubscriptionsByTopic (topicArn_of fnArn topicName)].
Proof.
  intros H1. unfold _getSubscriptionInfo, request. cbn [bind run]. rewrite H1.
  cbn [bind run trace].
  destruct (remote w1 (listSubscriptionsByTopic (topicArn_of fnArn topicName)))
    as [[subs |] w2]; reflexivity.
Qed.

(** A fulfilled resolver run had both of its requests answered. *)
Lemma getSubscriptionInfo_fulfilled (self : Plugin) (fnDef : FunctionDefinition)
    (topicName protocol httpEndpoint : jsvalue) (w : World) (info : Info.t) :
  outcome (run remote (_getSubscriptionInfo self fnDef topicName protocol httpEndpoint) w)
  = Fulfilled info ->
  exists fnArn w1 subs w2,
    remote w (getFunction (name fnDef)) = (Some fnArn, w1)
    /\ remote w1 (listSubscriptionsByTopic (topicArn_of fnArn topicName)) = (Some subs, w2)
    /\ info = info_of fnArn (topicArn_of fnArn topicName)
                (List.find (is_existing protocol httpEndpoint fnArn) subs).
Proof.
  unfold _getSubscriptionInfo, request. cbn [bind run].
  destruct (remote w (getFunction (name fnDef))) as [[fnArn |] w1] eqn:H1;
    [| discriminate].
  cbn [bind run outcome].
  destruct (remote w1 (listSubscriptionsByTopic (topicArn_of fnArn topicName)))
    as [[subs |] w2] eqn:H2; [| discriminate].
  cbn [run outcome]. intros H. injection H as <-.
  exists fnArn, w1, subs, w2. auto.
Qed.

End Resolving.

(** The predicate of the resolver, read off its grouping: an entry is
    selected when it is not pending and its protocol or its endpoint fits. *)
Lemma is_existing_true (protocol httpEndpoint : jsvalue) (fnArn : string) (sub : Sub.t) :
  is_existing protocol httpEndpoint fnArn sub = true <->
  indexOf (toLowerCase (Sub.SubscriptionArn sub)) "pending" = -1
  /\ (Sub.Protocol sub = protocol
      \/ Sub.Endpoint sub = httpEndpoint
      \/ Sub.Endpoint sub = str fnArn).
Proof.
  unfold is_existing.
  destruct (Z.eqb_spec (indexOf (toLowerCase (Sub.SubscriptionArn sub)) "pending") (-1))
    as [E | E]; cbn [negb].
  - rewrite !orb_true_iff, andb_true_iff, !orb_true_iff, !strict_eq_true.
    cbn [truthy String.eqb negb]. intuition.
  - split; [discriminate | intros [H _]; contradiction].
Qed.

(** The identifier the resolver reports is absent, or that of a listed entry
    the predicate selects. *)
Lemma info_of_find (f : Sub.t -> bool) (fnArn topicArn : string) (subs : list Sub.t) :
  Info.SubscriptionArn (info_of fnArn topicArn (List.find f subs)) = undefined
  \/ exists sub, In sub subs /\ f sub = true
       /\ Info.SubscriptionArn (info_of fnArn topicArn (List.find f subs))
          = str (Sub.SubscriptionArn sub)
       /\ Info.Endpoint (info_of fnArn topicArn (List.find f subs)) = Sub.Endpoint sub.
Proof.
  destruct (List.find f subs) as [sub |] eqn:E; [right | left; reflexivity].
  apply List.find_some in E. exists sub. simpl. tauto.
Qed.

(** The end-to-end scenario of the specification: nothing is subscribed, and
    the action subscribes the function's ARN under the lambda protocol. *)
Example subscribe_notify_to_orders :
  calls (trace (run aws (subscribeFunction plugin "notify" notify (bare "orders"))
                  fresh_account))
  = [getRestApis;
     getFunction "notify-dev";
     listSubscriptionsByTopic orders_arn;
     subscribe orders_arn (str "lambda") (str notify_arn)].
Proof. vm_compute. reflexivity. Qed.

(** * The claims *)

(** ** Name normalization *)

Lemma is_alnum_upper_char (c : ascii) : is_alnum (upper_char c) = is_alnum c.
Proof. destruct c as [[] [] [] [] [] [] [] []]; reflexivity. Qed.

Lemma strip_non_alnum_alnum (s : string) :
  forallb is_alnum (list_ascii_of_string (strip_non_alnum s)) = true.
Proof.
  induction s as [| c t IH]; simpl; [reflexivity |].
  destruct (is_alnum c) eqn:E; simpl; [rewrite E |]; exact IH.
Qed.

(** C10: name normalization is a function of the name alone.  The topic name
    "my-topic!" normalizes to "Mytopic"; every topic name normalizes to its
    alphanumeric characters with the first one upper-cased, so that only
    alphanumeric characters remain; the empty topic name, and an empty,
    undefined or null name given to [_normalize], normalize to nothing. *)
Theorem name_normalization :
  _normalizeTopicName (str "my-topic!") = Ok (str "Mytopic")
  /\ (forall s : string,
        _normalizeTopicName (str s)
        = Ok match strip_non_alnum s with
             | EmptyString => undefined
             | String c t => str (String (upper_char c) t)
             end)
  /\ (forall s t : string,
        _normalizeTopicName (str s) = Ok (str t) ->
        forallb is_alnum (list_ascii_of_string t) = true)
  /\ _normalizeTopicName (str "") = Ok undefined
  /\ _normalize (str "") = undefined
  /\ _normalize undefined = undefined
  /\ _normalize null = undefined.
Proof.
  split; [reflexivity |]. split; [| split; [| repeat split]].
  - intros s. unfold _normalizeTopicName, _normalize.
    destruct (strip_non_alnum s); reflexivity.
  - intros s t. unfold _normalizeTopicName, _normalize.
    pose proof (strip_non_alnum_alnum s) as H.
    destruct (strip_non_alnum s) as [| c u]; [discriminate |].
    intros E. injection E as <-. simpl in *.
    rewrite is_alnum_upper_char. exact H.
Qed.

(** ** Set-subscription-attributes *)

(** C7: with an empty (falsy) subscription identifier, and whatever the
    attribute, [_setSubscriptionAttributes] issues no request and is
    fulfilled with the message 'Subscription ARN was empty'. *)
Theorem setSubscriptionAttributes_empty {World : Type}
    (remote : World -> forall c : call, option (reply c) * World)
    (self : Plugin) (subscriptionArn : jsvalue) (attribute : Attr.t) (w : World) :
  truthy subscriptionArn = false ->
  run remote (_setSubscriptionAttributes self subscriptionArn attribute) w
  = {| outcome := Fulfilled (message "Subscription ARN was empty");
       trace := [];
       after := w |}.
Proof.
  intros H. unfold _setSubscriptionAttributes. rewrite H. reflexivity.
Qed.

Lemma setSubscriptionAttributes_empty_witness :
  truthy undefined = false
  /\ run aws (_setSubscriptionAttributes plugin undefined
                {| Attr.name := DELIVERY_POLICY_ATTR; Attr.value := retry_policy |})
       fresh_account
     = {| outcome := Fulfilled (message "Subscription ARN was empty");
          trace := [];
          after := fresh_account |}.
Proof.
  split; [reflexivity |].
  apply (setSubscriptionAttributes_empty aws plugin undefined). reflexivity.
Defined.

(** ** The permission compiler *)

(** C8, as stated for every topic binding, fails on a binding that carries
    a delivery policy but no topic name: [addEventPermission] throws and
    writes no resource, under no key. *)
Lemma addEventPermission_policy_only_writes_nothing :
  ~ exists (Resources' : gmap string Resource) (key : string) (permission : Resource),
      addEventPermission ∅ "notify" notify policy_only = Ok Resources'
      /\ Resources' !! key = Some permission.
Proof. intros (Resources' & key & permission & H & _). vm_compute in H. discriminate. Qed.

(** C8, amended: for every function name and every binding that carries a
    topic name, [addEventPermission] writes one resource: the permission,
    under the key made of the normalized function name, "LambdaPermission"
    and the normalized topic name.  Every other key of the template is left
    as it was, and compiling again writes the same resource under the same
    key, leaving the template unchanged. *)
Theorem addEventPermission_writes_one (Resources : gmap string Resource)
    (fnName : string) (fnDef : FunctionDefinition) (binding : TopicBinding)
    (topicName : string) (normalizedTopicName : jsvalue) :
  topic_of binding = str topicName ->
  _normalizeTopicName (str topicName) = Ok normalizedTopicName ->
  let key := toString (_normalize (str fnName)) ++ "LambdaPermission"
             ++ toString normalizedTopicName in
  let permission :=
    {| Type_ := "AWS::Lambda::Permission";
       Properties_ :=
         {| FunctionName :=
              Fn_GetAtt (toString (_normalize (str fnName)) ++ "LambdaFunction") "Arn";
            Action := "lambda:InvokeFunction";
            Principal := "sns.amazonaws.com";
            SourceArn := Fn_Join ":" [Lit (str "arn:aws:sns"); Ref "AWS::Region";
                                      Ref "AWS::AccountId"; Lit (str topicName)] |} |} in
  exists Resources' : gmap string Resource,
    addEventPermission Resources fnName fnDef binding = Ok Resources'
    /\ Resources' !! key = Some permission
    /\ (forall k : string, k <> key -> Resources' !! k = Resources !! k)
    /\ addEventPermission Resources' fnName fnDef binding = Ok Resources'.
Proof.
  intros Htopic Hnorm key permission.
  exists (<[key := permission]> Resources).
  unfold addEventPermission. rewrite Htopic, Hnorm.
  fold key. unfold permission_of, permRef_of. fold key. fold permission.
  repeat split.
  - apply lookup_insert_eq.
  - intros k Hk. apply lookup_insert_ne. congruence.
  - f_equal. apply insert_insert_eq.
Qed.

Lemma addEventPermission_writes_one_witness :
  topic_of (bare "my-topic!") = str "my-topic!"
  /\ _normalizeTopicName (str "my-topic!") = Ok (str "Mytopic")
  /\ exists Resources' : gmap string Resource,
       addEventPermission ∅ "notify" notify (bare "my-topic!") = Ok Resources'
       /\ Resources' !! "NotifyLambdaPermissionMytopic"
          = Some {| Type_ := "AWS::Lambda::Permission";
                    Properties_ :=
                      {| FunctionName := Fn_GetAtt "NotifyLambdaFunction" "Arn";
                         Action := "lambda:InvokeFunction";
                         Principal := "sns.amazonaws.com";
                         SourceArn :=
                           Fn_Join ":" [Lit (str "arn:aws:sns"); Ref "AWS::Region";
                                        Ref "AWS::AccountId"; Lit (str "my-topic!")] |} |}
       /\ (forall k : string,
             k <> "NotifyLambdaPermissionMytopic" -> Resources' !! k = (∅ : gmap string Resource) !! k)
       /\ addEventPermission Resources' "notify" notify (bare "my-topic!") = Ok Resources'.
Proof.
  split; [reflexivity |]. split; [reflexivity |].
  apply (addEventPermission_writes_one ∅ "notify" notify (bare "my-topic!")
           "my-topic!" (str "Mytopic")); reflexivity.
Defined.

(** ** The subscription resolver *)

Lemma calls_app (a b : list event) : calls (a ++ b) = (calls a ++ calls b)%list.
Proof.
  induction a as [| e a IH]; [reflexivity |].
  destruct e; simpl; rewrite IH; reflexivity.
Qed.

(** Positions 3 and 4 of an ARN [arn:partition:service:region:account:...]. *)
Lemma arn_positions (partition service rg acct rest : string) :
  free_of ":" partition = true -> free_of ":" service = true ->
  free_of ":" rg = true -> free_of ":" acct = true ->
  let fnArn := String.concat ":" ["arn"; partition; service; rg; acct; rest] in
  region_of fnArn = str rg /\ acctID_of fnArn = str acct.
Proof.
  intros Hp Hs Hr Ha fnArn. unfold region_of, acctID_of, fnArn.
  cbn [String.concat].
  change (split ":" ("arn" ++ ":" ++ partition ++ ":" ++ service ++ ":" ++ rg ++ ":"
                      ++ acct ++ ":" ++ rest))
    with (split ":" ("arn" ++ String ":" (partition ++ String ":" (service
                      ++ String ":" (rg ++ String ":" (acct ++ String ":" rest)))))).
  rewrite !split_segment by (assumption || reflexivity).
  split; reflexivity.
Qed.

(** C3: for every function ARN [getFunction] answers, the resolver takes the
    region and the account id from positions 3 and 4 of the colon-delimited
    ARN, asks for the subscriptions of the topic ARN "arn:aws:sns:" + region
    + ":" + account id + ":" + topic name, and reports that topic ARN. *)
Theorem resolver_topic_arn {World : Type}
    (remote : World -> forall c : call, option (reply c) * World)
    (self : Plugin) (fnDef : FunctionDefinition)
    (topicName protocol httpEndpoint : jsvalue) (w w1 : World) (fnArn : string) :
  remote w (getFunction (name fnDef)) = (Some fnArn, w1) ->
  let region := at_index (split ":" fnArn) 3 in
  let acctID := at_index (split ":" fnArn) 4 in
  let topicArn := "arn:aws:sns:" ++ toString region ++ ":" ++ toString acctID ++ ":"
                  ++ toString topicName in
  let r := run remote (_getSubscriptionInfo self fnDef topicName protocol httpEndpoint) w in
  calls (trace r) = [getFunction (name fnDef); listSubscriptionsByTopic topicArn]
  /\ (forall info : Info.t,
        outcome r = Fulfilled info ->
        Info.FunctionArn info = fnArn /\ Info.TopicArn info = topicArn)
  /\ (forall partition service rg acct rest : string,
        free_of ":" partition = true -> free_of ":" service = true ->
        free_of ":" rg = true -> free_of ":" acct = true ->
        fnArn = String.concat ":" ["arn"; partition; service; rg; acct; rest] ->
        topicArn = "arn:aws:sns:" ++ rg ++ ":" ++ acct ++ ":" ++ toString topicName).
Proof.
  intros H1 region acctID topicArn r.
  assert (Ht : topicArn_of fnArn topicName = topicArn) by reflexivity.
  unfold r, _getSubscriptionInfo, request. cbn [bind run]. rewrite H1.
  cbn [bind run trace outcome]. rewrite Ht.
  split; [| split].
  - destruct (remote w1 (listSubscriptionsByTopic topicArn)) as [[subs |] w2]; reflexivity.
  - intros info.
    destruct (remote w1 (listSubscriptionsByTopic topicArn)) as [[subs |] w2];
      cbn [outcome run]; [| discriminate].
    intros E. injection E as <-. split; reflexivity.
  - intros partition service rg acct rest Hp Hs Hg Ha ->.
    destruct (arn_positions partition service rg acct rest Hp Hs Hg Ha) as [Hrg Hacct].
    unfold topicArn, region, acctID. fold (region_of (String.concat ":"
      ["arn"; partition; service; rg; acct; rest])).
    fold (acctID_of (String.concat ":" ["arn"; partition; service; rg; acct; rest])).
    cbv zeta in Hrg, Hacct. rewrite Hrg, Hacct. reflexivity.
Qed.

Lemma resolver_topic_arn_witness :
  aws fresh_account (getFunction (name notify)) = (Some notify_arn, fresh_account)
  /\ calls (trace (run aws (_getSubscriptionInfo plugin notify (str "orders") (str "lambda")
                              null) fresh_account))
     = [getFunction "notify-dev"; listSubscriptionsByTopic orders_arn].
Proof.
  split; [reflexivity |].
  exact (proj1 (resolver_topic_arn aws plugin notify (str "orders") (str "lambda") null
                  fresh_account fresh_account notify_arn eq_refl)).
Defined.

(** C1: the resolver, asked for the lambda subscription of [notify-dev] to
    "orders", selects a listed lambda subscription of another function, whose
    endpoint is neither the explicit endpoint nor the function ARN; and it
    selects an e-mail subscription whose endpoint is the function ARN.  The
    protocol test and the endpoint test are joined by "or". *)
Theorem resolver_selects_on_either :
  is_existing (str "lambda") null notify_arn other_subscription = true
  /\ is_existing (str "lambda") null notify_arn email_subscription = true
  /\ outcome (run aws (_getSubscriptionInfo plugin notify (str "orders") (str "lambda") null)
                (account_with [other_subscription]))
     = Fulfilled {| Info.FunctionArn := notify_arn;
                    Info.TopicArn := orders_arn;
                    Info.SubscriptionArn :=
                      str "arn:aws:sns:us-east-1:111122223333:orders:0001";
                    Info.Endpoint :=
                      str "arn:aws:lambda:us-east-1:111122223333:function:other-dev" |}
  /\ strict_eq (Sub.Endpoint other_subscription) null = false
  /\ strict_eq (Sub.Endpoint other_subscription) (str notify_arn) = false
  /\ outcome (run aws (_getSubscriptionInfo plugin notify (str "orders") (str "lambda") null)
                (account_with [email_subscription]))
     = Fulfilled {| Info.FunctionArn := notify_arn;
                    Info.TopicArn := orders_arn;
                    Info.SubscriptionArn :=
                      str "arn:aws:sns:us-east-1:111122223333:orders:0002";
                    Info.Endpoint := str notify_arn |}
  /\ strict_eq (Sub.Protocol email_subscription) (str "lambda") = false.
Proof. repeat split; vm_compute; reflexivity. Qed.

(** With another function subscribed, the subscribe action takes the
    function for subscribed and issues no subscribe request. *)
Example subscribe_skipped_for_other_function :
  calls (trace (run aws (subscribeFunction plugin "notify" notify (bare "orders"))
                  (account_with [other_subscription])))
  = [getRestApis; getFunction "notify-dev"; listSubscriptionsByTopic orders_arn].
Proof. vm_compute. reflexivity. Qed.

(** ** Bindings without a topic name *)

(** C9, as stated, fails for the permission compiler: on a binding without a
    topic name it does not proceed, it throws. *)
Lemma addEventPermission_no_topic_throws :
  ~ exists Resources' : gmap string Resource,
      addEventPermission ∅ "notify" notify no_topic = Ok Resources'.
Proof. intros [Resources' H]. vm_compute in H. discriminate. Qed.

(** C9, amended: a binding without a topic name is not validated.  The
    unsubscribe and subscribe actions go on to ask for the subscriptions of
    the topic ARN composed with the text "undefined" for the topic name; the
    permission compiler throws a TypeError and writes nothing. *)
Theorem binding_without_topic {World : Type}
    (remote : World -> forall c : call, option (reply c) * World)
    (self : Plugin) (fnName : string) (fnDef : FunctionDefinition) (o : TopicObject)
    (w0 w w1 : World) (apis : list Api.t) (fnArn : string) :
  topic o = undefined ->
  noDeploy (_opts self) = false ->
  remote w0 getRestApis = (Some apis, w) ->
  remote w (getFunction (name fnDef)) = (Some fnArn, w1) ->
  let topicArn := "arn:aws:sns:" ++ toString (region_of fnArn) ++ ":"
                  ++ toString (acctID_of fnArn) ++ ":undefined" in
  (exists rest,
     calls (trace (run remote (unsubscribeFunction self fnName fnDef (object o)) w))
     = getFunction (name fnDef) :: listSubscriptionsByTopic topicArn :: rest)
  /\ (exists rest,
        calls (trace (run remote (subscribeFunction self fnName fnDef (object o)) w0))
        = getRestApis :: getFunction (name fnDef) :: listSubscriptionsByTopic topicArn
            :: rest)
  /\ (forall Resources : gmap string Resource,
        addEventPermission Resources fnName fnDef (object o)
        = TypeError "Cannot read properties of undefined (reading 'replace')").
Proof.
  intros Ho Hdeploy Hapis Hfn topicArn.
  assert (Ht : forall v, topic_of (object o) = v -> topicArn_of fnArn v = topicArn).
  { intros v <-. simpl. rewrite Ho. reflexivity. }
  split; [| split].
  - unfold unsubscribeFunction. cbn [run trace calls].
    rewrite run_bind. unfold and_then.
    pose proof (getSubscriptionInfo_calls remote self fnDef (topic_of (object o)) undefined
                  undefined w w1 fnArn Hfn) as Hcalls.
    rewrite (Ht _ eq_refl) in Hcalls.
    destruct (outcome (run remote (_getSubscriptionInfo self fnDef (topic_of (object o))
                                     undefined undefined) w)) as [info | failed];
      cbn [trace]; [| eexists; exact Hcalls].
    rewrite calls_app, Hcalls. eexists. reflexivity.
  - unfold subscribeFunction. rewrite Hdeploy. cbn [run trace calls].
    unfold _getFunctionEndpoint, _getRestApiId, request. cbn [bind run].
    rewrite Hapis. cbn [trace calls].
    match goal with |- context [if ?b then _ else _] => destruct b end;
      cbn [bind run trace calls]; rewrite run_bind; unfold and_then.
    all: match goal with
         | |- context [run ?R (_getSubscriptionInfo ?s ?d ?t ?p ?e) ?x] =>
             pose proof (getSubscriptionInfo_calls R s d t p e x w1 fnArn Hfn) as Hcalls;
             rewrite (Ht _ eq_refl) in Hcalls;
             destruct (outcome (run R (_getSubscriptionInfo s d t p e) x))
               as [info | failed]; cbn [trace]
         end.
    all: try (rewrite calls_app, Hcalls; eexists; reflexivity).
    all: eexists; rewrite Hcalls; reflexivity.
  - intros Resources. unfold addEventPermission. cbn [topic_of]. rewrite Ho. reflexivity.
Qed.

Lemma binding_without_topic_witness :
  topic {| topic := undefined; DeliveryPolicy := None; Protocol := undefined |} = undefined
  /\ noDeploy (_opts plugin) = false
  /\ aws fresh_account getRestApis = (Some (restApis fresh_account), fresh_account)
  /\ aws fresh_account (getFunction (name notify)) = (Some notify_arn, fresh_account)
  /\ (exists rest,
        calls (trace (run aws (unsubscribeFunction plugin "notify" notify no_topic)
                        fresh_account))
        = getFunction "notify-dev"
            :: listSubscriptionsByTopic "arn:aws:sns:us-east-1:111122223333:undefined"
            :: rest).
Proof.
  repeat (split; [reflexivity |]).
  exact (proj1 (binding_without_topic aws plugin "notify" notify
                  {| topic := undefined; DeliveryPolicy := None; Protocol := undefined |}
                  fresh_account fresh_account fresh_account (restApis fresh_account)
                  notify_arn eq_refl eq_refl eq_refl eq_refl)).
Defined.

(** ** Runs of the subscribe and unsubscribe actions *)

Lemma mutations_app (a b : list event) :
  mutations (a ++ b) = (mutations a ++ mutations b)%list.
Proof. unfold mutations. rewrite calls_app. apply List.filter_app. Qed.

Section Acting.
Context {World : Type}.
Variable remote : World -> forall c : call, option (reply c) * World.

(** A program that issues no request satisfying [P] has none in its runs. *)
Lemma issues_none_In (P : call -> bool) {A : Type} (p : prog A) (w : World) (c : call) :
  issues P 0 p -> In c (calls (trace (run remote p w))) -> P c = false.
Proof.
  intros H Hin. destruct (P c) eqn:E; [| reflexivity].
  pose proof (issues_none_run remote P p w H) as Hnone.
  assert (Hc : In c (List.filter P (calls (trace (run remote p w))))).
  { apply List.filter_In. split; assumption. }
  rewrite Hnone in Hc. destruct Hc.
Qed.

Lemma resolving_mutates_nothing (self : Plugin) (fnDef : FunctionDefinition)
    (topicName protocol httpEndpoint : jsvalue) (w : World) :
  mutations (trace (run remote
                      (_getSubscriptionInfo self fnDef topicName protocol httpEndpoint) w))
  = [].
Proof. apply issues_none_run, getSubscriptionInfo_reads. Qed.

Lemma locating_mutates_nothing (self : Plugin) (fnDef : FunctionDefinition) (w : World) :
  mutations (trace (run remote (_getFunctionEndpoint self fnDef) w)) = [].
Proof. apply issues_none_run, getFunctionEndpoint_reads. Qed.

(** The requests of [_setSubscriptionAttributes]: one, on the identifier it
    is given, when that identifier is not empty. *)
Lemma setSubscriptionAttributes_calls (self : Plugin) (subscriptionArn : jsvalue)
    (attribute : Attr.t) (w : World) :
  calls (trace (run remote (_setSubscriptionAttributes self subscriptionArn attribute) w))
  = if truthy subscriptionArn then
      [setSubscriptionAttributes (Attr.name attribute) subscriptionArn
         (JSON_stringify (JObject [("healthyRetryPolicy", Attr.value attribute)]))]
    else [].
Proof.
  unfold _setSubscriptionAttributes, request.
  destruct (truthy subscriptionArn); cbn [negb bind run]; [| reflexivity].
  match goal with |- context [remote w ?c] => destruct (remote w c) as [[answer |] w'] end;
    reflexivity.
Qed.

(** The subscribe action up to the resolved subscription. *)
Lemma run_subscribeFunction (self : Plugin) (fnName : string)
    (fnDef : FunctionDefinition) (binding : TopicBinding) (w : World)
    (fnEndpoint : jsvalue) (info : Info.t) :
  noDeploy (_opts self) = false ->
  let locating := run remote (_getFunctionEndpoint self fnDef) w in
  outcome locating = Fulfilled fnEndpoint ->
  let resolving :=
    run remote (_getSubscriptionInfo self fnDef (topic_of binding) (protocol_of binding)
                  (js_or fnEndpoint null)) (after locating) in
  outcome resolving = Fulfilled info ->
  let rest :=
    run remote (resolved self fnDef (topic_of binding) (protocol_of binding)
                  (subscriptionAttrs_of binding) fnEndpoint info) (after resolving) in
  run remote (subscribeFunction self fnName fnDef binding) w
  = {| outcome := outcome rest;
       trace := Logged ("Need to subscribe " ++ name fnDef ++ " to "
                        ++ toString (topic_of binding))
                :: (trace locating ++ trace resolving ++ trace rest)%list;
       after := after rest |}.
Proof.
  intros Hdeploy locating Hloc resolving Hres rest.
  unfold subscribeFunction. rewrite Hdeploy. cbn [run].
  rewrite run_bind, (and_then_fulfilled remote _ _ _ Hloc). cbn [outcome trace after].
  rewrite run_bind, (and_then_fulfilled remote _ _ _ Hres). cbn [outcome trace after].
  reflexivity.
Qed.

(** The unsubscribe action up to the resolved subscription. *)
Lemma run_unsubscribeFunction (self : Plugin) (fnName : string)
    (fnDef : FunctionDefinition) (binding : TopicBinding) (w : World) (info : Info.t) :
  let resolving :=
    run remote (_getSubscriptionInfo self fnDef (topic_of binding) undefined undefined) w in
  outcome resolving = Fulfilled info ->
  let rest :=
    run remote
      (if negb (truthy (Info.SubscriptionArn info)) then
         Log ("Function " ++ Info.FunctionArn info ++ " is not subscribed to "
              ++ Info.TopicArn info)
           (Ret nothing)
       else
         let! _ := request self (unsubscribe (Info.SubscriptionArn info)) in
         Log ("Function " ++ Info.FunctionArn info ++ " is no longer subscribed to "
              ++ Info.TopicArn info ++ " (deleted "
              ++ toString (Info.SubscriptionArn info) ++ ")")
           (Ret nothing))
      (after resolving) in
  run remote (unsubscribeFunction self fnName fnDef binding) w
  = {| outcome := outcome rest;
       trace := Logged ("Need to unsubscribe " ++ name fnDef ++ " from "
                        ++ toString (topic_of binding))
                :: (trace resolving ++ trace rest)%list;
       after := after rest |}.
Proof.
  intros resolving Hres rest.
  unfold unsubscribeFunction. cbn [run].
  rewrite run_bind, (and_then_fulfilled remote _ _ _ Hres). cbn [outcome trace after].
  reflexivity.
Qed.

(** The unsubscribe action when the resolver reports no identifier. *)
Lemma run_unsubscribeFunction_none (self : Plugin) (fnName : string)
    (fnDef : FunctionDefinition) (binding : TopicBinding) (w : World) (info : Info.t) :
  let resolving :=
    run remote (_getSubscriptionInfo self fnDef (topic_of binding) undefined undefined) w in
  outcome resolving = Fulfilled info ->
  truthy (Info.SubscriptionArn info) = false ->
  run remote (unsubscribeFunction self fnName fnDef binding) w
  = {| outcome := Fulfilled nothing;
       trace := Logged ("Need to unsubscribe " ++ name fnDef ++ " from "
                        ++ toString (topic_of binding))
                :: (trace resolving
                    ++ [Logged ("Function " ++ Info.FunctionArn info
                                ++ " is not subscribed to " ++ Info.TopicArn info)])%list;
       after := after resolving |}.
Proof.
  intros resolving Hres Hnone.
  rewrite (run_unsubscribeFunction self fnName fnDef binding w info Hres).
  fold resolving. rewrite Hnone. reflexivity.
Qed.

Lemma unsubscribeFunction_none_mutations (self : Plugin) (fnName : string)
    (fnDef : FunctionDefinition) (binding : TopicBinding) (w : World) (info : Info.t) :
  outcome (run remote (_getSubscriptionInfo self fnDef (topic_of binding) undefined
                         undefined) w)
  = Fulfilled info ->
  truthy (Info.SubscriptionArn info) = false ->
  mutations (trace (run remote (unsubscribeFunction self fnName fnDef binding) w)) = [].
Proof.
  intros Hres Hnone.
  rewrite (run_unsubscribeFunction_none self fnName fnDef binding w info Hres Hnone).
  cbn [trace].
  change (Logged ?m :: ?a ++ ?b)%list with (([Logged m] ++ a) ++ b)%list.
  rewrite !mutations_app, resolving_mutates_nothing. reflexivity.
Qed.

End Acting.

(** ** Unsubscribing *)

(** C6: when the resolver finds no subscription (the SubscriptionArn it
    reports is absent, or empty), the unsubscribe action logs that the
    function is not subscribed and is fulfilled, having issued no request
    beyond the resolver's two reads. *)
Theorem unsubscribe_not_subscribed {World : Type}
    (remote : World -> forall c : call, option (reply c) * World)
    (self : Plugin) (fnName : string) (fnDef : FunctionDefinition)
    (binding : TopicBinding) (w : World) (info : Info.t) :
  let resolving :=
    run remote (_getSubscriptionInfo self fnDef (topic_of binding) undefined undefined) w in
  outcome resolving = Fulfilled info ->
  truthy (Info.SubscriptionArn info) = false ->
  let r := run remote (unsubscribeFunction self fnName fnDef binding) w in
  outcome r = Fulfilled nothing
  /\ trace r
     = Logged ("Need to unsubscribe " ++ name fnDef ++ " from " ++ toString (topic_of binding))
       :: (trace resolving
           ++ [Logged ("Function " ++ Info.FunctionArn info ++ " is not subscribed to "
                       ++ Info.TopicArn info)])%list
  /\ mutations (trace r) = []
  /\ after r = after resolving.
Proof.
  intros resolving Hres Hnone r.
  pose proof (unsubscribeFunction_none_mutations remote self fnName fnDef binding w info
                Hres Hnone) as Hmut.
  fold r in Hmut. unfold r at 1 2 4.
  rewrite (run_unsubscribeFunction_none remote self fnName fnDef binding w info Hres Hnone).
  repeat split. exact Hmut.
Qed.

Lemma unsubscribe_not_subscribed_witness :
  outcome (run aws (_getSubscriptionInfo plugin notify (topic_of (bare "orders"))
                      undefined undefined) fresh_account)
  = Fulfilled {| Info.FunctionArn := notify_arn; Info.TopicArn := orders_arn;
                 Info.SubscriptionArn := undefined; Info.Endpoint := undefined |}
  /\ truthy undefined = false
  /\ outcome (run aws (unsubscribeFunction plugin "notify" notify (bare "orders"))
                fresh_account)
     = Fulfilled nothing
  /\ mutations (trace (run aws (unsubscribeFunction plugin "notify" notify (bare "orders"))
                         fresh_account))
     = [].
Proof.
  split; [reflexivity |]. split; [reflexivity |].
  pose proof (unsubscribe_not_subscribed aws plugin "notify" notify (bare "orders")
                fresh_account
                {| Info.FunctionArn := notify_arn; Info.TopicArn := orders_arn;
                   Info.SubscriptionArn := undefined; Info.Endpoint := undefined |}
                eq_refl eq_refl) as [Hout [_ [Hmut _]]].
  split; [exact Hout | exact Hmut].
Defined.

(** Without a protocol and an explicit endpoint, an entry that carries a
    protocol is selected on its endpoint alone. *)
Lemma is_existing_unsubscribing (fnArn : string) (sub : Sub.t) :
  Sub.Protocol sub <> undefined ->
  is_existing undefined undefined fnArn sub = true ->
  Sub.Endpoint sub = str fnArn \/ Sub.Endpoint sub = undefined.
Proof.
  intros Hp H. apply is_existing_true in H as [_ [H | [H | H]]]; [contradiction | auto ..].
Qed.

Lemma is_existing_unsubscribing_cases (fnArn : string) (sub : Sub.t) :
  is_existing undefined undefined fnArn sub = true ->
  Sub.Protocol sub = undefined
  \/ Sub.Endpoint sub = str fnArn \/ Sub.Endpoint sub = undefined.
Proof.
  intros H. apply is_existing_true in H as [_ [H | [H | H]]]; auto.
Qed.

(** C5, as stated, fails on a listed entry that carries no protocol: with
    the requested protocol undefined its protocol test holds, the entry is
    selected although its endpoint is an invoke URL, and the unsubscribe
    action issues the unsubscribe request for it. *)
Lemma unsubscribe_invoke_url_without_protocol :
  Sub.Endpoint protocolless_subscription = str notify_url
  /\ strict_eq (str notify_url) (str notify_arn) = false
  /\ is_existing undefined undefined notify_arn protocolless_subscription = true
  /\ mutations (trace (run aws (unsubscribeFunction plugin "notify" notify (bare "orders"))
                         (account_with [protocolless_subscription])))
     = [unsubscribe (str "arn:aws:sns:us-east-1:111122223333:orders:0004")].
Proof. repeat split; vm_compute; reflexivity. Qed.

(** C5, amended: the unsubscribe action resolves with neither a protocol nor
    an explicit endpoint.  The resolver's predicate then accepts a listed
    entry only if it carries no protocol, or its endpoint is the function ARN
    or undefined; an unsubscribe request is issued only for such an entry.
    An entry that carries a protocol and whose endpoint is another string,
    such as an HTTP invoke URL, is never matched, and when every listed
    entry is such, no unsubscribe request is issued at all. *)
Theorem unsubscribe_matches_function_arn {World : Type}
    (remote : World -> forall c : call, option (reply c) * World)
    (self : Plugin) (fnName : string) (fnDef : FunctionDefinition)
    (binding : TopicBinding) (w w1 w2 : World) (fnArn : string) (subs : list Sub.t) :
  remote w (getFunction (name fnDef)) = (Some fnArn, w1) ->
  remote w1 (listSubscriptionsByTopic (topicArn_of fnArn (topic_of binding)))
  = (Some subs, w2) ->
  let resolving :=
    run remote (_getSubscriptionInfo self fnDef (topic_of binding) undefined undefined) w in
  let r := run remote (unsubscribeFunction self fnName fnDef binding) w in
  outcome resolving
  = Fulfilled (info_of fnArn (topicArn_of fnArn (topic_of binding))
                 (List.find (is_existing undefined undefined fnArn) subs))
  /\ (forall sub,
        is_existing undefined undefined fnArn sub = true ->
        Sub.Protocol sub = undefined
        \/ Sub.Endpoint sub = str fnArn \/ Sub.Endpoint sub = undefined)
  /\ (forall sub url,
        Sub.Protocol sub <> undefined -> Sub.Endpoint sub = str url -> url <> fnArn ->
        is_existing undefined undefined fnArn sub = false)
  /\ (forall a,
        In (unsubscribe a) (calls (trace r)) ->
        exists sub,
          In sub subs /\ a = str (Sub.SubscriptionArn sub)
          /\ (Sub.Protocol sub = undefined
              \/ Sub.Endpoint sub = str fnArn \/ Sub.Endpoint sub = undefined))
  /\ ((forall sub, In sub subs ->
         Sub.Protocol sub <> undefined
         /\ exists url, Sub.Endpoint sub = str url /\ url <> fnArn) ->
      mutations (trace r) = [] /\ outcome r = Fulfilled nothing).
Proof.
  intros Hfn Hlist resolving r.
  pose proof (run_getSubscriptionInfo remote self fnDef (topic_of binding) undefined undefined
                w w1 w2 fnArn subs Hfn Hlist) as Hrun.
  fold resolving in Hrun.
  assert (Hres : outcome resolving
                 = Fulfilled (info_of fnArn (topicArn_of fnArn (topic_of binding))
                                (List.find (is_existing undefined undefined fnArn) subs))).
  { rewrite Hrun. reflexivity. }
  assert (Hr := run_unsubscribeFunction remote self fnName fnDef binding w _ Hres).
  cbv zeta in Hr. fold resolving r in Hr.
  assert (Hurl : forall sub url,
            Sub.Protocol sub <> undefined -> Sub.Endpoint sub = str url -> url <> fnArn ->
            is_existing undefined undefined fnArn sub = false).
  { intros sub url Hp Eurl Hne.
    destruct (is_existing undefined undefined fnArn sub) eqn:Hsel; [| reflexivity].
    destruct (is_existing_unsubscribing_cases fnArn sub Hsel) as [E | [E | E]];
      [contradiction | rewrite Eurl in E; congruence | rewrite Eurl in E; discriminate]. }
  split; [exact Hres |]. split; [| split; [| split]].
  - intros sub. apply is_existing_unsubscribing_cases.
  - exact Hurl.
  - intros a. rewrite Hr. cbn [trace calls]. rewrite calls_app, Hrun. cbn [trace calls app].
    destruct (List.find (is_existing undefined undefined fnArn) subs) as [sub |] eqn:Efind;
      cbn [info_of Info.SubscriptionArn Info.FunctionArn Info.TopicArn].
    + apply List.find_some in Efind as [Hin Hsel].
      destruct (truthy (str (Sub.SubscriptionArn sub))); cbn [negb].
      * unfold request. cbn [bind run after].
        intros Hcall. exists sub.
        assert (Ha : unsubscribe a = unsubscribe (str (Sub.SubscriptionArn sub))).
        { destruct (remote w2 (unsubscribe (str (Sub.SubscriptionArn sub))))
            as [[answer |] w3]; cbn [trace calls] in Hcall;
            destruct Hcall as [E | [E | [E | []]]]; congruence. }
        injection Ha as ->.
        split; [exact Hin |]. split; [reflexivity |].
        apply is_existing_unsubscribing_cases, Hsel.
      * cbn [run trace calls]. intros [E | [E | []]]; discriminate.
    + cbn [truthy negb run trace calls]. intros [E | [E | []]]; discriminate.
  - intros Hall.
    assert (Enone : List.find (is_existing undefined undefined fnArn) subs = None).
    { destruct (List.find (is_existing undefined undefined fnArn) subs) as [sub |] eqn:Efind;
        [| reflexivity].
      apply List.find_some in Efind as [Hin Hsel].
      destruct (Hall sub Hin) as [Hp [url [Eurl Hne]]].
      rewrite (Hurl sub url Hp Eurl Hne) in Hsel. discriminate. }
    rewrite Enone in Hres.
    split.
    + exact (unsubscribeFunction_none_mutations remote self fnName fnDef binding w _ Hres
               eq_refl).
    + unfold r.
      rewrite (run_unsubscribeFunction_none remote self fnName fnDef binding w _ Hres eq_refl).
      reflexivity.
Qed.

Lemma unsubscribe_matches_function_arn_witness :
  aws (account_with [https_subscription]) (getFunction (name notify))
  = (Some notify_arn, account_with [https_subscription])
  /\ aws (account_with [https_subscription])
       (listSubscriptionsByTopic (topicArn_of notify_arn (topic_of (bare "orders"))))
     = (Some [https_subscription], account_with [https_subscription])
  /\ (forall sub, In sub [https_subscription] ->
        Sub.Protocol sub <> undefined
        /\ exists url, Sub.Endpoint sub = str url /\ url <> notify_arn)
  /\ mutations (trace (run aws (unsubscribeFunction plugin "notify" notify (bare "orders"))
                         (account_with [https_subscription])))
     = [].
Proof.
  assert (Hall : forall sub, In sub [https_subscription] ->
                   Sub.Protocol sub <> undefined
                   /\ exists url, Sub.Endpoint sub = str url /\ url <> notify_arn).
  { intros sub [<- | []]. split; [discriminate |].
    eexists. split; [reflexivity | discriminate]. }
  split; [reflexivity |]. split; [reflexivity |]. split; [exact Hall |].
  exact (proj1 (proj2 (proj2 (proj2 (proj2
           (unsubscribe_matches_function_arn aws plugin "notify" notify (bare "orders")
              (account_with [https_subscription]) (account_with [https_subscription])
              (account_with [https_subscription]) notify_arn [https_subscription]
              eq_refl eq_refl)))) Hall)).
Defined.

(** An entry without a protocol is selected whatever its endpoint. *)
Example is_existing_without_protocol :
  is_existing undefined undefined notify_arn
    {| Sub.SubscriptionArn := "arn:aws:sns:us-east-1:111122223333:orders:0004";
       Sub.Protocol := undefined;
       Sub.Endpoint := str "https://a1b2c3.execute-api.us-east-1.amazonaws.com/dev/notify" |}
  = true.
Proof. reflexivity. Qed.

(** ** Subscribing *)

Lemma subscriptionAttrs_of_name (binding : TopicBinding) (attrs : Attr.t) :
  subscriptionAttrs_of binding = Some attrs -> Attr.name attrs = "DeliveryPolicy".
Proof.
  destruct binding as [s | o]; simpl; [discriminate |].
  destruct (DeliveryPolicy o); [| discriminate].
  intros E. injection E as <-. reflexivity.
Qed.

(** The subscribe action when the resolver reports a subscription. *)
Lemma run_subscribeFunction_existing {World : Type}
    (remote : World -> forall c : call, option (reply c) * World)
    (self : Plugin) (fnName : string) (fnDef : FunctionDefinition)
    (binding : TopicBinding) (w : World) (fnEndpoint : jsvalue) (info : Info.t) :
  noDeploy (_opts self) = false ->
  let locating := run remote (_getFunctionEndpoint self fnDef) w in
  outcome locating = Fulfilled fnEndpoint ->
  let resolving :=
    run remote (_getSubscriptionInfo self fnDef (topic_of binding) (protocol_of binding)
                  (js_or fnEndpoint null)) (after locating) in
  outcome resolving = Fulfilled info ->
  truthy (Info.SubscriptionArn info) = true ->
  let r := run remote (subscribeFunction self fnName fnDef binding) w in
  List.filter is_subscribe (calls (trace r)) = []
  /\ match subscriptionAttrs_of binding with
     | Some attrs =>
         mutations (trace r)
         = [setSubscriptionAttributes "DeliveryPolicy" (Info.SubscriptionArn info)
              (JSON_stringify (JObject [("healthyRetryPolicy", Attr.value attrs)]))]
     | None => mutations (trace r) = [] /\ outcome r = Fulfilled nothing
     end.
Proof.
  intros Hdeploy locating Hloc resolving Hres Hsome r.
  assert (Hr := run_subscribeFunction remote self fnName fnDef binding w fnEndpoint info
                  Hdeploy Hloc Hres).
  cbv zeta in Hr. fold locating resolving r in Hr.
  unfold resolved in Hr. rewrite Hsome in Hr. cbn [run] in Hr.
  assert (Hmut :
    mutations (trace r)
    = match subscriptionAttrs_of binding with
      | Some attrs =>
          [setSubscriptionAttributes "DeliveryPolicy" (Info.SubscriptionArn info)
             (JSON_stringify (JObject [("healthyRetryPolicy", Attr.value attrs)]))]
      | None => []
      end).
  { rewrite Hr. cbn [trace].
    change (Logged ?m :: ?a ++ ?b ++ ?c)%list with (([Logged m] ++ a) ++ b ++ c)%list.
    rewrite !mutations_app. unfold locating, resolving.
    rewrite locating_mutates_nothing, resolving_mutates_nothing.
    destruct (subscriptionAttrs_of binding) as [attrs |] eqn:Eattrs; [| reflexivity].
    cbn [run trace]. unfold mutations. cbn [calls app].
    rewrite setSubscriptionAttributes_calls, Hsome.
    rewrite (subscriptionAttrs_of_name binding attrs Eattrs). reflexivity. }
  assert (Hnone : List.filter is_subscribe (calls (trace r)) = []).
  { assert (Hall : forall c, In c (mutations (trace r)) -> is_subscribe c = false).
    { rewrite Hmut. destruct (subscriptionAttrs_of binding); intros c Hc;
        [destruct Hc as [<- | []]; reflexivity | destruct Hc]. }
    destruct (List.filter is_subscribe (calls (trace r))) as [| c l] eqn:E; [reflexivity |].
    assert (Hc : In c (List.filter is_subscribe (calls (trace r)))) by (rewrite E; left; reflexivity).
    apply List.filter_In in Hc as [Hin Hsub].
    rewrite (Hall c) in Hsub; [discriminate |].
    apply List.filter_In. split; [exact Hin | apply mutating_is_subscribe, Hsub]. }
  split; [exact Hnone |].
  destruct (subscriptionAttrs_of binding) as [attrs |] eqn:Eattrs; [exact Hmut |].
  split; [exact Hmut |]. rewrite Hr. reflexivity.
Qed.

Lemma In_calls_app (c : call) (a b : list event) :
  In c (calls (a ++ b)) -> In c (calls a) \/ In c (calls b).
Proof. rewrite calls_app. apply List.in_app_or. Qed.

(** The identifier the resolver reports is never one that announces a
    pending confirmation. *)
Lemma resolved_not_pending {World : Type}
    (remote : World -> forall c : call, option (reply c) * World)
    (self : Plugin) (fnDef : FunctionDefinition)
    (topicName protocol httpEndpoint : jsvalue) (w : World) (info : Info.t)
    (SubscriptionArn : jsvalue) :
  outcome (run remote (_getSubscriptionInfo self fnDef topicName protocol httpEndpoint) w)
  = Fulfilled info ->
  truthy SubscriptionArn = true ->
  pending_confirmation SubscriptionArn = true ->
  Info.SubscriptionArn info <> SubscriptionArn.
Proof.
  intros Hres Htruthy Hpending.
  apply getSubscriptionInfo_fulfilled in Hres as (fnArn & w1 & subs & w2 & _ & _ & ->).
  destruct (info_of_find (is_existing protocol httpEndpoint fnArn) fnArn
              (topicArn_of fnArn topicName) subs) as [E | (sub & _ & Hsel & E & _)];
    rewrite E.
  - intros <-. discriminate.
  - intros <-. apply is_existing_true in Hsel as [Hno _].
    unfold pending_confirmation in Hpending. cbn [toString] in Hpending.
    apply negb_true_iff, Z.eqb_neq, pending_confirmation_pending in Hpending.
    contradiction.
Qed.

(** C2: the resolver found no subscription, a delivery policy was requested,
    and the subscribe request was answered with an identifier.  If that
    identifier contains "pending confirmation" in any letter case, the action
    logs, waits 10000 ms, resolves again, and sets the policy on the
    identifier resolved after the wait, which is never the pending one: no
    set-attributes request carries another identifier.  If it does not, the
    action sets the policy on the identifier of the response. *)
Theorem subscribe_pending_confirmation {World : Type}
    (remote : World -> forall c : call, option (reply c) * World)
    (self : Plugin) (fnName : string) (fnDef : FunctionDefinition)
    (binding : TopicBinding) (attrs : Attr.t) (w w2 : World)
    (fnEndpoint : jsvalue) (info : Info.t) (SubscriptionArn : jsvalue) :
  noDeploy (_opts self) = false ->
  subscriptionAttrs_of binding = Some attrs ->
  let locating := run remote (_getFunctionEndpoint self fnDef) w in
  outcome locating = Fulfilled fnEndpoint ->
  let resolving :=
    run remote (_getSubscriptionInfo self fnDef (topic_of binding) (protocol_of binding)
                  (js_or fnEndpoint null)) (after locating) in
  outcome resolving = Fulfilled info ->
  truthy (Info.SubscriptionArn info) = false ->
  let subscribing :=
    subscribe (Info.TopicArn info) (protocol_of binding)
      (js_or fnEndpoint (str (Info.FunctionArn info))) in
  remote (after resolving) subscribing = (Some SubscriptionArn, w2) ->
  truthy SubscriptionArn = true ->
  let r := run remote (subscribeFunction self fnName fnDef binding) w in
  let so_far :=
    (Logged ("Need to subscribe " ++ name fnDef ++ " to " ++ toString (topic_of binding))
     :: trace locating ++ trace resolving
     ++ [Requested subscribing (stage (_opts self)) (region (_opts self));
         Logged ("Function " ++ Info.FunctionArn info ++ " is now subscribed to "
                 ++ Info.TopicArn info)])%list in
  if negb (indexOf (toLowerCase (toString SubscriptionArn)) "pending confirmation" =? -1)
  then
    let again :=
      run remote (_getSubscriptionInfo self fnDef (topic_of binding) (protocol_of binding)
                    undefined) w2 in
    forall newInfo : Info.t,
      outcome again = Fulfilled newInfo ->
      let setting :=
        run remote (_setSubscriptionAttributes self (Info.SubscriptionArn newInfo) attrs)
          (after again) in
      trace r
      = (so_far
         ++ Logged "Subscription is pending, resubscribing, retrying in 10 seconds"
         :: Waited 10000
         :: trace again
         ++ Logged ("Setting subscription attributes on: "
                    ++ toString (Info.SubscriptionArn newInfo))
         :: trace setting)%list
      /\ outcome r = outcome setting
      /\ Info.SubscriptionArn newInfo <> SubscriptionArn
      /\ (forall n a v,
            In (setSubscriptionAttributes n a v) (calls (trace r)) ->
            a = Info.SubscriptionArn newInfo)
  else
    let setting := run remote (_setSubscriptionAttributes self SubscriptionArn attrs) w2 in
    trace r = (so_far ++ Logged "Setting subscription attributes" :: trace setting)%list
    /\ outcome r = outcome setting
    /\ mutations (trace r)
       = [subscribing;
          setSubscriptionAttributes "DeliveryPolicy" SubscriptionArn
            (JSON_stringify (JObject [("healthyRetryPolicy", Attr.value attrs)]))].
Proof.
  intros Hdeploy Hattrs locating Hloc resolving Hres Hnone subscribing Hsub Htruthy r so_far.
  assert (Hr := run_subscribeFunction remote self fnName fnDef binding w fnEndpoint info
                  Hdeploy Hloc Hres).
  cbv zeta in Hr. fold locating resolving r in Hr.
  unfold resolved in Hr. rewrite Hnone, Hattrs in Hr.
  fold subscribing in Hr. unfold request in Hr. cbn [bind run] in Hr.
  rewrite Hsub in Hr. unfold subscribed in Hr. rewrite Htruthy in Hr.
  fold (pending_confirmation SubscriptionArn).
  destruct (pending_confirmation SubscriptionArn) eqn:Hpending.
  - intros again newInfo Hagain setting.
    cbn [run] in Hr. rewrite run_bind in Hr. fold again in Hr.
    rewrite (and_then_fulfilled remote _ _ _ Hagain) in Hr.
    cbn [run outcome trace after] in Hr. fold setting in Hr.
    assert (Htrace : trace r
       = (so_far
          ++ Logged "Subscription is pending, resubscribing, retrying in 10 seconds"
          :: Waited 10000
          :: trace again
          ++ Logged ("Setting subscription attributes on: "
                     ++ toString (Info.SubscriptionArn newInfo))
          :: trace setting)%list).
    { rewrite Hr. cbn [trace]. unfold so_far.
      rewrite <- !List.app_comm_cons, <- !List.app_assoc. reflexivity. }
    split; [exact Htrace |]. split; [rewrite Hr; reflexivity |].
    split; [exact (resolved_not_pending remote _ _ _ _ _ _ _ _ Hagain Htruthy Hpending) |].
    intros n a v. rewrite Htrace. unfold so_far.
    change (Logged ?m :: ?x)%list with ([Logged m] ++ x)%list.
    intros Hin.
    repeat (apply In_calls_app in Hin as [Hin | Hin]).
    + destruct Hin.
    + apply (issues_none_In remote mutating) in Hin;
        [discriminate | apply getFunctionEndpoint_reads].
    + apply (issues_none_In remote mutating) in Hin;
        [discriminate | apply getSubscriptionInfo_reads].
    + cbn [calls] in Hin. destruct Hin as [E | []]. discriminate.
    + destruct Hin.
    + apply (issues_none_In remote mutating) in Hin;
        [discriminate | apply getSubscriptionInfo_reads].
    + cbn [calls] in Hin. unfold setting in Hin.
      rewrite setSubscriptionAttributes_calls in Hin.
      destruct (truthy (Info.SubscriptionArn newInfo)); [| destruct Hin].
      destruct Hin as [E | []]. congruence.
  - intros setting. cbn [run outcome trace after] in Hr. fold setting in Hr.
    assert (Htrace : trace r
       = (so_far ++ Logged "Setting subscription attributes" :: trace setting)%list).
    { rewrite Hr. cbn [trace]. unfold so_far.
      rewrite <- !List.app_comm_cons, <- !List.app_assoc. reflexivity. }
    split; [exact Htrace |]. split; [rewrite Hr; reflexivity |].
    rewrite Htrace. unfold so_far.
    change (Logged ?m :: ?x)%list with ([Logged m] ++ x)%list.
    rewrite !mutations_app. unfold locating, resolving.
    rewrite locating_mutates_nothing, resolving_mutates_nothing.
    unfold mutations at 4. unfold setting. cbn [calls].
    rewrite setSubscriptionAttributes_calls, Htruthy.
    rewrite (subscriptionAttrs_of_name binding attrs Hattrs). reflexivity.
Qed.

Lemma subscribe_pending_confirmation_witness :
  noDeploy (_opts plugin) = false
  /\ subscriptionAttrs_of orders_https
     = Some {| Attr.name := "DeliveryPolicy"; Attr.value := retry_policy |}
  /\ outcome (run aws (_getFunctionEndpoint plugin notify_http) fresh_account)
     = Fulfilled (str notify_url)
  /\ outcome (run aws (_getSubscriptionInfo plugin notify_http (topic_of orders_https)
                         (protocol_of orders_https) (js_or (str notify_url) null))
                (after (run aws (_getFunctionEndpoint plugin notify_http) fresh_account)))
     = Fulfilled {| Info.FunctionArn := notify_arn; Info.TopicArn := orders_arn;
                    Info.SubscriptionArn := undefined; Info.Endpoint := undefined |}
  /\ truthy undefined = false
  /\ aws fresh_account (subscribe orders_arn (str "https") (str notify_url))
     = (Some (str "pending confirmation"), awaiting_account)
  /\ truthy (str "pending confirmation") = true
  /\ (forall n a v,
        In (setSubscriptionAttributes n a v)
          (calls (trace (run aws (subscribeFunction plugin "notify" notify_http orders_https)
                           fresh_account))) ->
        a = str notify_subscription).
Proof.
  repeat (split; [reflexivity |]).
  exact (proj2 (proj2 (proj2
           (subscribe_pending_confirmation aws plugin "notify" notify_http orders_https
              {| Attr.name := "DeliveryPolicy"; Attr.value := retry_policy |}
              fresh_account awaiting_account (str notify_url)
              {| Info.FunctionArn := notify_arn; Info.TopicArn := orders_arn;
                 Info.SubscriptionArn := undefined; Info.Endpoint := undefined |}
              (str "pending confirmation")
              eq_refl eq_refl eq_refl eq_refl eq_refl eq_refl eq_refl
              {| Info.FunctionArn := notify_arn; Info.TopicArn := orders_arn;
                 Info.SubscriptionArn := str notify_subscription;
                 Info.Endpoint := str notify_url |}
              eq_refl)))).
Defined.

(** * Further properties *)

(** ** The event iterator and the compile hook *)

Lemma each_event_each_call {S : Type} (f : action S) (fnName : string)
    (fnDef : FunctionDefinition) (evts : list Event) (s : S) :
  each_event (Some f) fnName fnDef evts s
  = each_call f
      (List.flat_map (fun evt => match selected evt with
                                 | Some b => [(fnName, fnDef, b)]
                                 | None => []
                                 end) evts) s.
Proof.
  revert s. induction evts as [| evt rest IH]; intros s; simpl; [reflexivity |].
  destruct (selected evt) as [b |]; simpl; [| apply IH].
  destruct (f fnName fnDef b s); [apply IH | reflexivity].
Qed.

Lemma each_call_app {S : Type} (f : action S)
    (l1 l2 : list (string * FunctionDefinition * TopicBinding)) (s : S) :
  each_call f (l1 ++ l2) s
  = match each_call f l1 s with
    | (s', None) => each_call f l2 s'
    | (s', Some e) => (s', Some e)
    end.
Proof.
  revert s. induction l1 as [| [[n d] b] rest IH]; intros s; simpl; [reflexivity |].
  destruct (f n d b s); [apply IH | reflexivity].
Qed.

Lemma loopEvents_each_call {S : Type} (f : action S)
    (functions : list (string * FunctionDefinition)) (s : S) :
  _loopEvents (Some f) functions s = each_call f (invocations functions) s.
Proof.
  revert s. induction functions as [| [n d] rest IH]; intros s; [reflexivity |].
  cbn [_loopEvents invocations List.flat_map fst snd].
  rewrite each_call_app, each_event_each_call.
  fold (invocations rest).
  destruct (each_call f _ s) as [s' [e |]]; [reflexivity | apply IH].
Qed.

Lemma In_invocations (functions : list (string * FunctionDefinition))
    (n : string) (d : FunctionDefinition) (b : TopicBinding) :
  In (n, d, b) (invocations functions)
  <-> exists evt, In (n, d) functions /\ In evt (events d)
                  /\ externalSNS evt = Some b /\ truthy_binding b = true.
Proof.
  unfold invocations. rewrite List.in_flat_map. split.
  - intros [[n' d'] [Hf Hin]]. cbn [fst snd] in Hin.
    apply List.in_flat_map in Hin as [evt [Hevt Hsel]].
    unfold selected in Hsel.
    destruct (externalSNS evt) as [b' |] eqn:Eb; [| destruct Hsel].
    destruct (truthy_binding b') eqn:Et; [| destruct Hsel].
    destruct Hsel as [E | []]. injection E as -> -> ->.
    exists evt. auto.
  - intros [evt (Hf & Hevt & Eb & Et)]. exists (n, d). split; [exact Hf |].
    cbn [fst snd]. apply List.in_flat_map. exists evt. split; [exact Hevt |].
    unfold selected. rewrite Eb, Et. left. reflexivity.
Qed.

(** X1: [_loopEvents] calls its action once for each event whose
    [externalSNS] is truthy (an object, or a string that is not empty), and
    for no other: function after function in the order of the service,
    within a function in the order of its events, each call from the state
    the previous one left, up to the first call that throws. *)
Theorem loopEvents_calls {S : Type} (f : action S)
    (functions more : list (string * FunctionDefinition)) (s : S) :
  _loopEvents (Some f) functions s = each_call f (invocations functions) s
  /\ invocations (functions ++ more) = (invocations functions ++ invocations more)%list
  /\ (forall n d b,
        In (n, d, b) (invocations functions)
        <-> exists evt, In (n, d) functions /\ In evt (events d)
                        /\ externalSNS evt = Some b /\ truthy_binding b = true).
Proof.
  split; [apply loopEvents_each_call |]. split; [| apply In_invocations].
  unfold invocations. apply List.flat_map_app.
Qed.

Example invocations_of_service :
  invocations service
  = [("notify", notify, bare "orders");
     ("audit", audit, bare "orders");
     ("audit", audit, orders_with_policy)].
Proof. reflexivity. Qed.

Lemma addEventPermission_entry (R : gmap string Resource) (n : string)
    (d : FunctionDefinition) (b : TopicBinding) :
  addEventPermission R n d b
  = match permission_entry (n, d, b) with
    | Ok kv => Ok (<[fst kv := snd kv]> R)
    | TypeError e => TypeError e
    end.
Proof.
  unfold addEventPermission, permission_entry. cbn [fst snd].
  destruct (_normalizeTopicName (topic_of b)); reflexivity.
Qed.

Lemma each_call_entries (l : list (string * FunctionDefinition * TopicBinding))
    (R : gmap string Resource) :
  each_call (fun n d b R => addEventPermission R n d b) l R
  = (write_all (fst (entries l)) R, snd (entries l)).
Proof.
  revert R. induction l as [| [[n d] b] rest IH]; intros R; [reflexivity |].
  cbn [each_call entries]. rewrite addEventPermission_entry.
  destruct (permission_entry (n, d, b)) as [kv | e]; [| reflexivity].
  rewrite IH. reflexivity.
Qed.

Lemma compileEvents_entries (functions : list (string * FunctionDefinition))
    (R : gmap string Resource) :
  compileEvents functions R
  = (write_all (fst (entries (invocations functions))) R,
     snd (entries (invocations functions))).
Proof.
  unfold compileEvents.
  rewrite (loopEvents_each_call
             (fun fnName fnDef topicName R => addEventPermission R fnName fnDef topicName)).
  apply each_call_entries.
Qed.

Lemma write_all_other (kvs : list (string * Resource)) (R : gmap string Resource)
    (k : string) :
  ~ In k (List.map fst kvs) -> write_all kvs R !! k = R !! k.
Proof.
  revert R. induction kvs as [| [k0 v0] rest IH]; intros R Hk; [reflexivity |].
  cbn [write_all List.fold_left fst snd]. fold (write_all rest (<[k0 := v0]> R)).
  rewrite IH; [| intros H; apply Hk; right; exact H].
  apply lookup_insert_ne. intros ->. apply Hk. left. reflexivity.
Qed.

Lemma write_all_agree (kvs : list (string * Resource)) (R1 R2 : gmap string Resource) :
  (forall k, ~ In k (List.map fst kvs) -> R1 !! k = R2 !! k) ->
  write_all kvs R1 = write_all kvs R2.
Proof.
  revert R1 R2. induction kvs as [| [k0 v0] rest IH]; intros R1 R2 H.
  - apply map_eq. intros k. apply H. intros [].
  - cbn [write_all List.fold_left fst snd].
    fold (write_all rest (<[k0 := v0]> R1)) (write_all rest (<[k0 := v0]> R2)).
    apply IH. intros k Hk.
    destruct (decide (k0 = k)) as [-> | Hne].
    + rewrite !lookup_insert_eq. reflexivity.
    + rewrite !lookup_insert_ne by exact Hne.
      apply H. intros [E | Hin]; [exact (Hne E) | exact (Hk Hin)].
Qed.

Lemma write_all_written (kvs : list (string * Resource)) (R : gmap string Resource)
    (k : string) :
  In k (List.map fst kvs) ->
  exists v, In (k, v) kvs /\ write_all kvs R !! k = Some v.
Proof.
  revert R. induction kvs as [| [k0 v0] rest IH]; intros R Hk; [destruct Hk |].
  cbn [write_all List.fold_left fst snd]. fold (write_all rest (<[k0 := v0]> R)).
  destruct (List.in_dec string_dec k (List.map fst rest)) as [Hin | Hout].
  - destruct (IH (<[k0 := v0]> R) Hin) as [v [Hv Hl]].
    exists v. split; [right; exact Hv | exact Hl].
  - destruct Hk as [E | Hin]; [| contradiction]. cbn [fst] in E. subst k0.
    exists v0. split; [left; reflexivity |].
    rewrite write_all_other by exact Hout. apply lookup_insert_eq.
Qed.

(** X2: compiling is idempotent at the level of the hook.  Running
    [deploy:compileEvents] on the template it produced gives the same
    template and the same error, if any: every permission is written again
    under its own key. *)
Theorem compileEvents_idempotent (functions : list (string * FunctionDefinition))
    (Resources : gmap string Resource) :
  compileEvents functions (fst (compileEvents functions Resources))
  = compileEvents functions Resources.
Proof.
  rewrite !compileEvents_entries. cbn [fst]. f_equal.
  apply write_all_agree. intros k Hk. apply write_all_other, Hk.
Qed.

Lemma entries_In (l : list (string * FunctionDefinition * TopicBinding))
    (kv : string * Resource) :
  In kv (fst (entries l)) -> exists c, In c l /\ permission_entry c = Ok kv.
Proof.
  induction l as [| c rest IH]; [intros [] |].
  cbn [entries]. destruct (permission_entry c) as [kv0 | e] eqn:E; [| intros []].
  cbn [fst]. intros [<- | Hin].
  - exists c. split; [left; reflexivity | exact E].
  - destruct (IH Hin) as [c' [Hc' E']]. exists c'. split; [right; exact Hc' | exact E'].
Qed.

Lemma entries_complete (l : list (string * FunctionDefinition * TopicBinding))
    (c : string * FunctionDefinition * TopicBinding) :
  snd (entries l) = None -> In c l ->
  exists kv, permission_entry c = Ok kv /\ In kv (fst (entries l)).
Proof.
  induction l as [| c0 rest IH]; [intros _ [] |].
  cbn [entries]. destruct (permission_entry c0) as [kv0 | e] eqn:E; [| discriminate].
  cbn [fst snd]. intros Hnone [<- | Hin].
  - exists kv0. split; [exact E | left; reflexivity].
  - destruct (IH Hnone Hin) as [kv [Ekv Hkv]]. exists kv. split; [exact Ekv | right; exact Hkv].
Qed.

Lemma permission_entry_Ok (n : string) (d : FunctionDefinition) (b : TopicBinding)
    (kv : string * Resource) :
  permission_entry (n, d, b) = Ok kv ->
  exists t nt,
    topic_of b = str t /\ _normalizeTopicName (str t) = Ok nt
    /\ kv = (permRef_of (_normalize (str n)) nt, permission_of (_normalize (str n)) (str t)).
Proof.
  unfold permission_entry. cbn [fst snd].
  destruct (topic_of b) as [| | t] eqn:Et; cbn [_normalizeTopicName]; try discriminate.
  intros E. injection E as <-. exists t, (_normalize (str (strip_non_alnum t))). auto.
Qed.

(** X3: a binding without a topic name stops the compile hook.  The
    TypeError of its name normalization leaves the template as the calls
    before it made it, so the permissions of every later binding, also of
    later functions, are not compiled. *)
Theorem compileEvents_stops (functions : list (string * FunctionDefinition))
    (Resources Resources' : gmap string Resource)
    (pre post : list (string * FunctionDefinition * TopicBinding))
    (n : string) (d : FunctionDefinition) (b : TopicBinding) :
  invocations functions = (pre ++ (n, d, b) :: post)%list ->
  each_call (fun fnName fnDef topicName R => addEventPermission R fnName fnDef topicName)
    pre Resources
  = (Resources', None) ->
  topic_of b = undefined ->
  compileEvents functions Resources
  = (Resources', Some "Cannot read properties of undefined (reading 'replace')")
  /\ (forall k : string,
        (forall c kv, In c pre -> permission_entry c = Ok kv -> fst kv <> k) ->
        Resources' !! k = Resources !! k).
Proof.
  intros Hinv Hpre Htopic. split.
  - unfold compileEvents.
    rewrite (loopEvents_each_call
               (fun fnName fnDef topicName R => addEventPermission R fnName fnDef topicName)).
    rewrite Hinv, each_call_app, Hpre. cbn [each_call].
    unfold addEventPermission. rewrite Htopic. reflexivity.
  - intros k Hk. rewrite each_call_entries in Hpre. injection Hpre as <- _.
    apply write_all_other. intros Hin.
    apply List.in_map_iff in Hin as [kv [<- Hkv]].
    apply entries_In in Hkv as [c [Hc E]].
    exact (Hk c kv Hc E eq_refl).
Qed.

Lemma compileEvents_stops_witness :
  invocations broken_service
  = ([("notify", notify, bare "orders")]
     ++ ("broken", broken, no_topic)
     :: [("broken", broken, bare "late");
         ("audit", audit, bare "orders");
         ("audit", audit, orders_with_policy)])%list
  /\ each_call (fun fnName fnDef topicName R => addEventPermission R fnName fnDef topicName)
       [("notify", notify, bare "orders")] ∅
     = (<["NotifyLambdaPermissionOrders"
          := permission_of (str "Notify") (str "orders")]> ∅, None)
  /\ topic_of no_topic = undefined
  /\ compileEvents broken_service ∅
     = (<["NotifyLambdaPermissionOrders" := permission_of (str "Notify") (str "orders")]> ∅,
        Some "Cannot read properties of undefined (reading 'replace')").
Proof.
  split; [reflexivity |]. split; [reflexivity |]. split; [reflexivity |].
  exact (proj1 (compileEvents_stops broken_service ∅ _ [("notify", notify, bare "orders")]
                  _ "broken" broken no_topic eq_refl eq_refl eq_refl)).
Defined.

(** X4: when the compile hook ends without an error, the template holds a
    resource of type AWS::Lambda::Permission under the key of every binding
    the iterator selected, and every key that is the key of none of them
    keeps what the template held before. *)
Theorem compileEvents_writes_permissions (functions : list (string * FunctionDefinition))
    (Resources : gmap string Resource) :
  snd (compileEvents functions Resources) = None ->
  let Resources' := fst (compileEvents functions Resources) in
  (forall n d b,
     In (n, d, b) (invocations functions) ->
     exists t nt r,
       topic_of b = str t /\ _normalizeTopicName (str t) = Ok nt
       /\ Resources' !! (toString (_normalize (str n)) ++ "LambdaPermission" ++ toString nt)
          = Some r
       /\ Type_ r = "AWS::Lambda::Permission")
  /\ (forall k : string,
        (forall n d b nt,
           In (n, d, b) (invocations functions) ->
           _normalizeTopicName (topic_of b) = Ok nt ->
           toString (_normalize (str n)) ++ "LambdaPermission" ++ toString nt <> k) ->
        Resources' !! k = Resources !! k).
Proof.
  rewrite compileEvents_entries. cbn [fst snd]. intros Hnone. split.
  - intros n d b Hin.
    destruct (entries_complete _ _ Hnone Hin) as [kv [E Hkv]].
    destruct (permission_entry_Ok n d b kv E) as (t & nt & Et & Ent & ->).
    destruct (write_all_written (fst (entries (invocations functions))) Resources
                (permRef_of (_normalize (str n)) nt)) as [r [Hr Hl]].
    { apply List.in_map_iff. eexists. split; [| exact Hkv]. reflexivity. }
    exists t, nt, r. split; [exact Et |]. split; [exact Ent |]. split; [exact Hl |].
    apply entries_In in Hr as [[[n' d'] b'] [_ E']].
    apply permission_entry_Ok in E' as (t' & nt' & _ & _ & E').
    injection E' as _ ->. reflexivity.
  - intros k Hk. apply write_all_other. intros Hin.
    apply List.in_map_iff in Hin as [kv [<- Hkv]].
    apply entries_In in Hkv as [[[n d] b] [Hc E]].
    destruct (permission_entry_Ok n d b kv E) as (t & nt & Et & Ent & ->).
    apply (Hk n d b nt Hc); [rewrite Et; exact Ent | reflexivity].
Qed.

Lemma compileEvents_writes_permissions_witness :
  snd (compileEvents service ∅) = None
  /\ exists r,
       fst (compileEvents service ∅) !! "AuditLambdaPermissionOrders" = Some r
       /\ Type_ r = "AWS::Lambda::Permission".
Proof.
  split; [reflexivity |].
  destruct (proj1 (compileEvents_writes_permissions service ∅ eq_refl)
              "audit" audit orders_with_policy)
    as (t & nt & r & Et & Ent & Hr & Htype).
  { right. right. left. reflexivity. }
  injection Et as <-. injection Ent as <-.
  exists r. split; [exact Hr | exact Htype].
Defined.

Lemma each_event_undefined (fnName : string) (fnDef : FunctionDefinition)
    (evts : list Event) :
  each_event (S := unit) None fnName fnDef evts tt
  = (tt, match List.flat_map (fun evt => match selected evt with
                                         | Some b => [(fnName, fnDef, b)]
                                         | None => []
                                         end) evts with
         | [] => None
         | _ :: _ => Some "Cannot read properties of undefined (reading 'call')"
         end).
Proof.
  induction evts as [| evt rest IH]; [reflexivity |].
  cbn [each_event List.flat_map]. destruct (selected evt); [reflexivity | exact IH].
Qed.

(** X5: the hook [info:info] is bound to [this.getInfo], which the class
    does not define.  It does nothing for a service without a truthy
    externalSNS event, and throws a TypeError at the first such event
    otherwise. *)
Theorem info_hook_throws (functions : list (string * FunctionDefinition)) :
  info_hook functions
  = match invocations functions with
    | [] => None
    | _ :: _ => Some "Cannot read properties of undefined (reading 'call')"
    end.
Proof.
  unfold info_hook.
  induction functions as [| [n d] rest IH]; [reflexivity |].
  cbn [_loopEvents invocations List.flat_map fst snd].
  rewrite each_event_undefined. fold (invocations rest).
  destruct (List.flat_map _ (events d)) as [| c l]; [exact IH | reflexivity].
Qed.

(** ** Permission keys *)

(** X6: two topic names with the same normalization share a permission key
    for a function, for instance names that differ in characters outside
    [0-9A-Za-z] only.  Compiling the second binding replaces the resource
    of the first: the template is the one compiling the second alone gives,
    and the SourceArn under the key names the second topic. *)
Theorem permission_key_collision (Resources : gmap string Resource) (fnName : string)
    (fnDef : FunctionDefinition) (b1 b2 : TopicBinding) (t1 t2 : string) :
  topic_of b1 = str t1 -> topic_of b2 = str t2 ->
  strip_non_alnum t1 = strip_non_alnum t2 ->
  exists (nt : jsvalue) (R1 R2 : gmap string Resource),
    _normalizeTopicName (str t1) = Ok nt /\ _normalizeTopicName (str t2) = Ok nt
    /\ addEventPermission Resources fnName fnDef b1 = Ok R1
    /\ addEventPermission R1 fnName fnDef b2 = Ok R2
    /\ addEventPermission Resources fnName fnDef b2 = Ok R2
    /\ (R2 !! (toString (_normalize (str fnName)) ++ "LambdaPermission" ++ toString nt))
       = Some (permission_of (_normalize (str fnName)) (str t2)).
Proof.
  intros H1 H2 Hstrip.
  exists (_normalize (str (strip_non_alnum t1))).
  unfold addEventPermission. rewrite H1, H2. cbn [_normalizeTopicName].
  rewrite <- Hstrip.
  eexists. eexists. split; [reflexivity |]. split; [reflexivity |].
  split; [reflexivity |]. split; [reflexivity |]. split.
  - f_equal. symmetry. apply insert_insert_eq.
  - apply lookup_insert_eq.
Qed.

Lemma permission_key_collision_witness :
  topic_of (bare "my-topic") = str "my-topic"
  /\ topic_of (bare "my_topic!") = str "my_topic!"
  /\ strip_non_alnum "my-topic" = strip_non_alnum "my_topic!"
  /\ exists (nt : jsvalue) (R1 R2 : gmap string Resource),
       _normalizeTopicName (str "my-topic") = Ok nt
       /\ _normalizeTopicName (str "my_topic!") = Ok nt
       /\ addEventPermission ∅ "notify" notify (bare "my-topic") = Ok R1
       /\ addEventPermission R1 "notify" notify (bare "my_topic!") = Ok R2
       /\ addEventPermission ∅ "notify" notify (bare "my_topic!") = Ok R2
       /\ (R2 !! (toString (_normalize (str "notify")) ++ "LambdaPermission" ++ toString nt))
          = Some (permission_of (_normalize (str "notify")) (str "my_topic!")).
Proof.
  split; [reflexivity |]. split; [reflexivity |]. split; [reflexivity |].
  exact (permission_key_collision ∅ "notify" notify (bare "my-topic") (bare "my_topic!")
           "my-topic" "my_topic!" eq_refl eq_refl eq_refl).
Defined.

Lemma upper_char_idempotent (c : ascii) : upper_char (upper_char c) = upper_char c.
Proof. destruct c as [[] [] [] [] [] [] [] []]; reflexivity. Qed.

Lemma strip_non_alnum_id (s : string) :
  forallb is_alnum (list_ascii_of_string s) = true -> strip_non_alnum s = s.
Proof.
  induction s as [| c t IH]; simpl; [reflexivity |].
  rewrite andb_true_iff. intros [Hc Ht]. rewrite Hc, (IH Ht). reflexivity.
Qed.

Lemma strip_non_alnum_length (s : string) :
  (String.length (strip_non_alnum s) <= String.length s)%nat.
Proof.
  induction s as [| c t IH]; simpl; [lia |].
  destruct (is_alnum c); simpl; lia.
Qed.

(** X7: normalized names are fixed points.  Normalizing a normalized name
    changes nothing, for [_normalize] and for [_normalizeTopicName], so a
    name taken from a resource key can be fed back; and a normalized topic
    name is never longer than the topic name. *)
Theorem normalization_idempotent :
  (forall v : jsvalue, _normalize (_normalize v) = _normalize v)
  /\ (forall (s : string) (v : jsvalue),
        _normalizeTopicName (str s) = Ok v ->
        v = undefined \/ _normalizeTopicName v = Ok v)
  /\ (forall s t : string,
        _normalizeTopicName (str s) = Ok (str t) ->
        (0 < String.length t <= String.length s)%nat).
Proof.
  split; [| split].
  - intros [| | [| c t]]; try reflexivity.
    change (str (String (upper_char (upper_char c)) t) = str (String (upper_char c) t)).
    rewrite upper_char_idempotent. reflexivity.
  - intros s v. cbn [_normalizeTopicName].
    pose proof (strip_non_alnum_alnum s) as Halnum.
    destruct (strip_non_alnum s) as [| c t]; cbn [_normalize]; intros E; injection E as <-;
      [left; reflexivity | right].
    change (toUpperCase (String c "") ++ t) with (String (upper_char c) t).
    cbn [_normalizeTopicName].
    rewrite strip_non_alnum_id.
    + change (Ok (str (String (upper_char (upper_char c)) t))
              = Ok (str (String (upper_char c) t))).
      rewrite upper_char_idempotent. reflexivity.
    + simpl in Halnum |- *. rewrite is_alnum_upper_char. exact Halnum.
  - intros s t. cbn [_normalizeTopicName].
    pose proof (strip_non_alnum_length s) as Hlen.
    destruct (strip_non_alnum s) as [| c u]; cbn [_normalize]; intros E;
      [discriminate | injection E as <-].
    change (String (upper_char c) "" ++ u) with (String (upper_char c) u).
    cbn [String.length] in Hlen |- *. lia.
Qed.

(** ** The forms of a binding *)

(** X8: a binding given as a bare string and as an object with the same
    topic, no delivery policy and a protocol that is missing, empty or
    "lambda" are the same to every action: the subscribe and unsubscribe
    actions are the same programs, and the permission compiler gives the
    same template. *)
Theorem binding_forms_agree (self : Plugin) (fnName : string) (fnDef : FunctionDefinition)
    (Resources : gmap string Resource) (s : string) (protocol : jsvalue) :
  truthy protocol = false \/ protocol = str "lambda" ->
  let o := object {| topic := str s; DeliveryPolicy := None; Protocol := protocol |} in
  subscribeFunction self fnName fnDef o = subscribeFunction self fnName fnDef (bare s)
  /\ unsubscribeFunction self fnName fnDef o = unsubscribeFunction self fnName fnDef (bare s)
  /\ addEventPermission Resources fnName fnDef o
     = addEventPermission Resources fnName fnDef (bare s).
Proof.
  intros Hp o.
  assert (Hprotocol : protocol_of o = protocol_of (bare s)).
  { cbn [protocol_of o Protocol]. destruct Hp as [-> | ->]; reflexivity. }
  split; [| split; reflexivity].
  unfold subscribeFunction. rewrite Hprotocol. reflexivity.
Qed.

Lemma binding_forms_agree_witness :
  (truthy null = false \/ null = str "lambda")
  /\ subscribeFunction plugin "notify" notify
       (object {| topic := str "orders"; DeliveryPolicy := None; Protocol := null |})
     = subscribeFunction plugin "notify" notify (bare "orders").
Proof.
  split; [left; reflexivity |].
  exact (proj1 (binding_forms_agree plugin "notify" notify ∅ "orders" null
                  (or_introl eq_refl))).
Defined.

(** ** The resolver's selection *)

Lemma find_first {A : Type} (f : A -> bool) (l : list A) (x : A) :
  List.find f l = Some x <->
  exists l1 l2, l = (l1 ++ x :: l2)%list /\ f x = true /\ forall y, In y l1 -> f y = false.
Proof.
  split.
  - induction l as [| a l IH]; [discriminate |].
    cbn [List.find]. destruct (f a) eqn:Ea.
    + intros E. injection E as ->. exists [], l. split; [reflexivity |].
      split; [exact Ea | intros y []].
    + intros E. destruct (IH E) as (l1 & l2 & -> & Hx & Hl1).
      exists (a :: l1), l2. split; [reflexivity |]. split; [exact Hx |].
      intros y [<- | Hy]; [exact Ea | apply Hl1, Hy].
  - intros (l1 & l2 & -> & Hx & Hl1).
    induction l1 as [| a l1 IH]; cbn [List.app List.find].
    + rewrite Hx. reflexivity.
    + rewrite (Hl1 a) by (left; reflexivity).
      apply IH. intros y Hy. apply Hl1. right. exact Hy.
Qed.

Lemma toLowerCase_app (a b : string) :
  toLowerCase (a ++ b) = toLowerCase a ++ toLowerCase b.
Proof.
  induction a as [| c t IH]; [reflexivity |].
  change (String c t ++ b) with (String c (t ++ b)).
  cbn [toLowerCase]. rewrite IH. reflexivity.
Qed.

(** X9: what the resolver reports, for any listing.  It is the first listed
    entry whose SubscriptionArn does not contain "pending" and whose protocol
    is the requested one, or whose endpoint is the explicit endpoint or the
    function ARN; its SubscriptionArn and Endpoint are reported together.
    When no entry is such, both are absent. *)
Theorem resolver_selects_first {World : Type}
    (remote : World -> forall c : call, option (reply c) * World)
    (self : Plugin) (fnDef : FunctionDefinition)
    (topicName protocol httpEndpoint : jsvalue) (w w1 w2 : World)
    (fnArn : string) (subs : list Sub.t) :
  remote w (getFunction (name fnDef)) = (Some fnArn, w1) ->
  remote w1 (listSubscriptionsByTopic (topicArn_of fnArn topicName)) = (Some subs, w2) ->
  let fits (sub : Sub.t) :=
    indexOf (toLowerCase (Sub.SubscriptionArn sub)) "pending" = -1
    /\ (Sub.Protocol sub = protocol
        \/ Sub.Endpoint sub = httpEndpoint
        \/ Sub.Endpoint sub = str fnArn) in
  let r := run remote (_getSubscriptionInfo self fnDef topicName protocol httpEndpoint) w in
  exists info : Info.t,
    outcome r = Fulfilled info /\ after r = w2
    /\ ((forall sub, In sub subs -> ~ fits sub)
        /\ Info.SubscriptionArn info = undefined /\ Info.Endpoint info = undefined
        \/ exists l1 sub l2,
             subs = (l1 ++ sub :: l2)%list
             /\ (forall earlier, In earlier l1 -> ~ fits earlier)
             /\ fits sub
             /\ Info.SubscriptionArn info = str (Sub.SubscriptionArn sub)
             /\ Info.Endpoint info = Sub.Endpoint sub).
Proof.
  intros Hfn Hlist fits r. unfold r.
  rewrite (run_getSubscriptionInfo remote self fnDef topicName protocol httpEndpoint
             w w1 w2 fnArn subs Hfn Hlist).
  eexists. split; [reflexivity |]. split; [reflexivity |].
  assert (Hfits : forall sub, is_existing protocol httpEndpoint fnArn sub = true <-> fits sub).
  { intros sub. apply is_existing_true. }
  destruct (List.find (is_existing protocol httpEndpoint fnArn) subs) as [sub |] eqn:E.
  - right. apply find_first in E as (l1 & l2 & -> & Hx & Hl1).
    exists l1, sub, l2. split; [reflexivity |]. split.
    + intros earlier Hin Hf. apply Hfits in Hf. rewrite (Hl1 earlier Hin) in Hf. discriminate.
    + split; [apply Hfits, Hx |]. split; reflexivity.
  - left. split; [| split; reflexivity].
    intros sub Hin Hf. apply Hfits in Hf.
    rewrite (List.find_none _ _ E sub Hin) in Hf. discriminate.
Qed.

Lemma resolver_selects_first_witness :
  aws (account_with [https_subscription; other_subscription; email_subscription])
    (getFunction (name notify))
  = (Some notify_arn, account_with [https_subscription; other_subscription; email_subscription])
  /\ aws (account_with [https_subscription; other_subscription; email_subscription])
       (listSubscriptionsByTopic (topicArn_of notify_arn (str "orders")))
     = (Some [https_subscription; other_subscription; email_subscription],
        account_with [https_subscription; other_subscription; email_subscription])
  /\ exists info : Info.t,
       outcome (run aws (_getSubscriptionInfo plugin notify (str "orders") (str "lambda") null)
                  (account_with [https_subscription; other_subscription;
                                 email_subscription]))
       = Fulfilled info.
Proof.
  split; [reflexivity |]. split; [reflexivity |].
  destruct (resolver_selects_first aws plugin notify (str "orders") (str "lambda") null
              (account_with [https_subscription; other_subscription; email_subscription])
              _ _ notify_arn [https_subscription; other_subscription; email_subscription]
              eq_refl eq_refl) as [info [Hout _]].
  exists info. exact Hout.
Defined.

(** X10: a listing in which every SubscriptionArn contains "pending", in
    whatever letter case, resolves to no subscription, whatever the protocol
    and the endpoints are: an entry awaiting confirmation never counts as an
    existing subscription. *)
Theorem resolver_skips_pending {World : Type}
    (remote : World -> forall c : call, option (reply c) * World)
    (self : Plugin) (fnDef : FunctionDefinition)
    (topicName protocol httpEndpoint : jsvalue) (w w1 w2 : World)
    (fnArn : string) (subs : list Sub.t) :
  remote w (getFunction (name fnDef)) = (Some fnArn, w1) ->
  remote w1 (listSubscriptionsByTopic (topicArn_of fnArn topicName)) = (Some subs, w2) ->
  (forall sub, In sub subs ->
     exists a p b, Sub.SubscriptionArn sub = a ++ p ++ b /\ toLowerCase p = "pending") ->
  outcome (run remote (_getSubscriptionInfo self fnDef topicName protocol httpEndpoint) w)
  = Fulfilled {| Info.FunctionArn := fnArn;
                 Info.TopicArn := topicArn_of fnArn topicName;
                 Info.SubscriptionArn := undefined;
                 Info.Endpoint := undefined |}.
Proof.
  intros Hfn Hlist Hpending.
  rewrite (run_getSubscriptionInfo remote self fnDef topicName protocol httpEndpoint
             w w1 w2 fnArn subs Hfn Hlist).
  cbn [outcome].
  destruct (List.find (is_existing protocol httpEndpoint fnArn) subs) as [sub |] eqn:E;
    [| reflexivity].
  apply List.find_some in E as [Hin Hsel].
  apply is_existing_true in Hsel as [Hno _].
  destruct (Hpending sub Hin) as (a & p & b & Earn & Ep).
  rewrite Earn, !toLowerCase_app, Ep in Hno.
  destruct (indexOf_occurs (toLowerCase a) "pending" (toLowerCase b) Hno).
Qed.

Lemma resolver_skips_pending_witness :
  unconfirmed tt (getFunction (name notify_http)) = (Some notify_arn, tt)
  /\ unconfirmed tt (listSubscriptionsByTopic (topicArn_of notify_arn (str "orders")))
     = (Some [as_pending https_subscription], tt)
  /\ (forall sub, In sub [as_pending https_subscription] ->
        exists a p b, Sub.SubscriptionArn sub = a ++ p ++ b /\ toLowerCase p = "pending")
  /\ outcome (run unconfirmed
                (_getSubscriptionInfo plugin notify_http (str "orders") (str "https")
                   (str notify_url)) tt)
     = Fulfilled {| Info.FunctionArn := notify_arn; Info.TopicArn := orders_arn;
                    Info.SubscriptionArn := undefined; Info.Endpoint := undefined |}.
Proof.
  assert (Hpending : forall sub, In sub [as_pending https_subscription] ->
            exists a p b, Sub.SubscriptionArn sub = a ++ p ++ b /\ toLowerCase p = "pending").
  { intros sub [<- | []]. exists "", "Pending", "Confirmation". split; reflexivity. }
  split; [reflexivity |]. split; [reflexivity |]. split; [exact Hpending |].
  exact (resolver_skips_pending unconfirmed plugin notify_http (str "orders") (str "https")
           (str notify_url) tt tt tt notify_arn [as_pending https_subscription]
           eq_refl eq_refl Hpending).
Defined.

(** ** The endpoint resolver *)

Lemma find_none_iff {A : Type} (f : A -> bool) (l : list A) :
  (forall x, In x l -> f x = false) -> List.find f l = None.
Proof.
  induction l as [| a l IH]; intros H; [reflexivity |].
  cbn [List.find]. rewrite (H a) by (left; reflexivity).
  apply IH. intros x Hx. apply H. right. exact Hx.
Qed.

Lemma run_getFunctionEndpoint {World : Type}
    (remote : World -> forall c : call, option (reply c) * World)
    (self : Plugin) (fnDef : FunctionDefinition) (w w1 : World) (apis : list Api.t) :
  remote w getRestApis = (Some apis, w1) ->
  run remote (_getFunctionEndpoint self fnDef) w
  = {| outcome :=
         Fulfilled
           (let id :=
              match List.find (fun item => String.eqb (getApiGatewayName self) (Api.name item))
                      apis with
              | Some a => Api.id a
              | None => null
              end in
            let apiPath :=
              match List.find (fun ev => match http ev with Some _ => true | None => false end)
                      (events fnDef) with
              | Some ev => match http ev with Some h => path h | None => undefined end
              | None => null
              end in
            if truthy id && truthy apiPath then
              str (INVOKE_URL id (js_or (region (_opts self)) (str DEFAULT_REGION))
                     (stage (_opts self)) apiPath)
            else null);
       trace := [Requested getRestApis (stage (_opts self)) (region (_opts self))];
       after := w1 |}.
Proof.
  intros H. unfold _getFunctionEndpoint, _getRestApiId, request. cbn [bind run].
  rewrite H. cbn [bind].
  match goal with |- context [if ?b then _ else _] => destruct b end; reflexivity.
Qed.

(** X11: for a function with an HTTP route and a deployed REST API of the
    service's gateway name, the endpoint is the invoke URL
    https://{id}.execute-api.{region}.amazonaws.com/{stage}/{path}, built
    from the first event that has an [http] key and the first API of that
    name, with "us-east-1" for a region that is not set. *)
Theorem getFunctionEndpoint_url {World : Type}
    (remote : World -> forall c : call, option (reply c) * World)
    (self : Plugin) (fnDef : FunctionDefinition) (w w1 : World)
    (apis apre apost : list Api.t) (api : Api.t) (pre post : list Event) (ev : Event)
    (h : HttpEvent) (p i : string) :
  remote w getRestApis = (Some apis, w1) ->
  events fnDef = (pre ++ ev :: post)%list ->
  (forall e, In e pre -> http e = None) ->
  http ev = Some h -> path h = str p -> p <> "" ->
  apis = (apre ++ api :: apost)%list ->
  (forall a, In a apre -> Api.name a <> getApiGatewayName self) ->
  Api.name api = getApiGatewayName self -> Api.id api = str i -> i <> "" ->
  outcome (run remote (_getFunctionEndpoint self fnDef) w)
  = Fulfilled
      (str ("https://" ++ i ++ ".execute-api."
            ++ (if truthy (region (_opts self)) then toString (region (_opts self))
                else "us-east-1")
            ++ ".amazonaws.com/" ++ toString (stage (_opts self)) ++ "/" ++ p)).
Proof.
  intros Hapis Hevents Hpre Hhttp Hpath Hp Hlist Hapre Hname Hid Hi.
  rewrite (run_getFunctionEndpoint remote self fnDef w w1 apis Hapis). cbn [outcome].
  assert (Eapi : List.find (fun item => String.eqb (getApiGatewayName self) (Api.name item))
                   apis = Some api).
  { apply find_first. exists apre, apost. split; [exact Hlist |]. split.
    - rewrite Hname. apply String.eqb_refl.
    - intros a Ha. apply String.eqb_neq. intros E. apply (Hapre a Ha). symmetry. exact E. }
  assert (Eev : List.find (fun ev => match http ev with Some _ => true | None => false end)
                  (events fnDef) = Some ev).
  { apply find_first. exists pre, post. split; [exact Hevents |]. split.
    - rewrite Hhttp. reflexivity.
    - intros e He. rewrite (Hpre e He). reflexivity. }
  rewrite Eapi, Eev, Hhttp, Hpath, Hid. cbv zeta.
  assert (Ti : truthy (str i) = true).
  { cbn [truthy]. apply negb_true_iff, String.eqb_neq, Hi. }
  assert (Tp : truthy (str p) = true).
  { cbn [truthy]. apply negb_true_iff, String.eqb_neq, Hp. }
  rewrite Ti, Tp. cbn [andb]. unfold INVOKE_URL, js_or, DEFAULT_REGION.
  destruct (truthy (region (_opts self))); reflexivity.
Qed.

Lemma getFunctionEndpoint_url_witness :
  aws fresh_account getRestApis = (Some (restApis fresh_account), fresh_account)
  /\ outcome (run aws (_getFunctionEndpoint plugin audit) fresh_account)
     = Fulfilled (str "https://a1b2c3.execute-api.us-east-1.amazonaws.com/dev/audit").
Proof.
  split; [reflexivity |].
  refine (getFunctionEndpoint_url aws plugin audit fresh_account fresh_account
            (restApis fresh_account) [] [] {| Api.name := "dev-service"; Api.id := str "a1b2c3" |}
            [] (List.tl (events audit))
            {| externalSNS := None; http := Some {| path := str "audit" |} |}
            {| path := str "audit" |} "audit" "a1b2c3"
            eq_refl eq_refl _ eq_refl eq_refl _ eq_refl _ eq_refl eq_refl _).
  - intros e [].
  - discriminate.
  - intros a [].
  - discriminate.
Defined.

(** X12: the endpoint resolver issues one request, [getRestApis], also for
    a function without an HTTP route.  Its answer is null, so that the
    function ARN becomes the endpoint, when no event of the function has an
    [http] key or no REST API has the gateway name; and it is rejected when
    the request fails. *)
Theorem getFunctionEndpoint_null {World : Type}
    (remote : World -> forall c : call, option (reply c) * World)
    (self : Plugin) (fnDef : FunctionDefinition) (w : World) :
  let r := run remote (_getFunctionEndpoint self fnDef) w in
  calls (trace r) = [getRestApis]
  /\ (forall apis w1,
        remote w getRestApis = (Some apis, w1) ->
        (forall e, In e (events fnDef) -> http e = None)
        \/ (forall a, In a apis -> Api.name a <> getApiGatewayName self) ->
        outcome r = Fulfilled null /\ after r = w1)
  /\ (forall w1, remote w getRestApis = (None, w1) -> outcome r = Rejected getRestApis).
Proof.
  intros r. split; [| split].
  - unfold r, _getFunctionEndpoint, _getRestApiId, request. cbn [bind run].
    destruct (remote w getRestApis) as [[apis |] w1]; [| reflexivity].
    cbn [bind].
    match goal with |- context [if ?b then _ else _] => destruct b end; reflexivity.
  - intros apis w1 Hapis Hnone. unfold r.
    rewrite (run_getFunctionEndpoint remote self fnDef w w1 apis Hapis).
    cbn [outcome after]. split; [| reflexivity]. f_equal.
    destruct Hnone as [Hev | Hapi].
    + rewrite (find_none_iff (fun ev => match http ev with Some _ => true | None => false end)
                 (events fnDef)).
      * cbv zeta. cbn [truthy]. rewrite andb_false_r. reflexivity.
      * intros e He. rewrite (Hev e He). reflexivity.
    + rewrite (find_none_iff
                 (fun item => String.eqb (getApiGatewayName self) (Api.name item)) apis).
      * reflexivity.
      * intros a Ha. apply String.eqb_neq. intros E. apply (Hapi a Ha). symmetry. exact E.
  - intros w1 Hfail. unfold r, _getFunctionEndpoint, _getRestApiId, request.
    cbn [bind run]. rewrite Hfail. reflexivity.
Qed.

(** ** The subscribe action *)

Lemma and_then_rejected {World : Type}
    (remote : World -> forall c : call, option (reply c) * World)
    {A B : Type} (r : Run World A) (f : A -> prog B) (c : call) :
  outcome r = Rejected c ->
  and_then remote r f = {| outcome := Rejected c; trace := trace r; after := after r |}.
Proof. intros H. unfold and_then. rewrite H. reflexivity. Qed.

Lemma getFunctionEndpoint_calls {World : Type}
    (remote : World -> forall c : call, option (reply c) * World)
    (self : Plugin) (fnDef : FunctionDefinition) (w : World) :
  calls (trace (run remote (_getFunctionEndpoint self fnDef) w)) = [getRestApis].
Proof.
  unfold _getFunctionEndpoint, _getRestApiId, request. cbn [bind run].
  destruct (remote w getRestApis) as [[apis |] w1]; [| reflexivity].
  cbn [bind].
  match goal with |- context [if ?b then _ else _] => destruct b end; reflexivity.
Qed.

(** X13: under the [noDeploy] option the subscribe action is a dry run: one
    log line, no request at all, the remote left as it was; without the
    option its first request is always [getRestApis].  The option is not
    read by the unsubscribe action, which runs the same with and without
    it. *)
Theorem subscribe_noDeploy {World : Type}
    (remote : World -> forall c : call, option (reply c) * World)
    (self : Plugin) (fnName : string) (fnDef : FunctionDefinition)
    (binding : TopicBinding) (w : World) :
  noDeploy (_opts self) = true ->
  run remote (subscribeFunction self fnName fnDef binding) w
  = {| outcome := Fulfilled nothing;
       trace := [Logged ("Not subscribing " ++ name fnDef ++ " to "
                         ++ toString (topic_of binding) ++ " because of the noDeploy flag")];
       after := w |}
  /\ (exists rest,
        calls (trace (run remote
                        (subscribeFunction (with_noDeploy false self) fnName fnDef binding) w))
        = getRestApis :: rest)
  /\ run remote (unsubscribeFunction self fnName fnDef binding) w
     = run remote (unsubscribeFunction (with_noDeploy false self) fnName fnDef binding) w.
Proof.
  intros H. split; [| split].
  - unfold subscribeFunction. rewrite H. reflexivity.
  - unfold subscribeFunction. cbn [with_noDeploy _opts noDeploy run trace calls].
    rewrite run_bind. unfold and_then.
    pose proof (getFunctionEndpoint_calls remote (with_noDeploy false self) fnDef w) as Hcalls.
    destruct (outcome (run remote (_getFunctionEndpoint (with_noDeploy false self) fnDef) w));
      cbn [trace]; rewrite ?calls_app, Hcalls; eexists; reflexivity.
  - reflexivity.
Qed.

Lemma subscribe_noDeploy_witness :
  noDeploy (_opts (with_noDeploy true plugin)) = true
  /\ calls (trace (run aws (subscribeFunction (with_noDeploy true plugin) "notify" notify
                              orders_with_policy) fresh_account))
     = []
  /\ calls (trace (run aws (unsubscribeFunction (with_noDeploy true plugin) "notify" notify
                              orders_with_policy) subscribed_account))
     = [getFunction "notify-dev"; listSubscriptionsByTopic orders_arn;
        unsubscribe (str notify_subscription)].
Proof.
  split; [reflexivity |].
  destruct (subscribe_noDeploy aws (with_noDeploy true plugin) "notify" notify
              orders_with_policy fresh_account eq_refl) as [Hsub _].
  split; [rewrite Hsub; reflexivity |].
  destruct (subscribe_noDeploy aws (with_noDeploy true plugin) "notify" notify
              orders_with_policy subscribed_account eq_refl) as [_ [_ Hunsub]].
  rewrite Hunsub. reflexivity.
Defined.

(** X14: a first subscription without a delivery policy.  When the resolver
    reports no subscription, the action's one mutating request is
    [subscribe] on the resolved topic ARN, with the binding's protocol
    ("lambda" by default) and as endpoint the invoke URL if the endpoint
    resolver gave one, the function ARN otherwise.  Answered, the action
    logs the subscription and is fulfilled; failed, it is rejected. *)
Theorem subscribe_fresh {World : Type}
    (remote : World -> forall c : call, option (reply c) * World)
    (self : Plugin) (fnName : string) (fnDef : FunctionDefinition)
    (binding : TopicBinding) (w : World) (fnEndpoint : jsvalue) (info : Info.t) :
  noDeploy (_opts self) = false ->
  subscriptionAttrs_of binding = None ->
  let locating := run remote (_getFunctionEndpoint self fnDef) w in
  outcome locating = Fulfilled fnEndpoint ->
  let resolving :=
    run remote (_getSubscriptionInfo self fnDef (topic_of binding) (protocol_of binding)
                  (js_or fnEndpoint null)) (after locating) in
  outcome resolving = Fulfilled info ->
  truthy (Info.SubscriptionArn info) = false ->
  let subscribing :=
    subscribe (Info.TopicArn info) (protocol_of binding)
      (if truthy fnEndpoint then fnEndpoint else str (Info.FunctionArn info)) in
  let r := run remote (subscribeFunction self fnName fnDef binding) w in
  mutations (trace r) = [subscribing]
  /\ (forall SubscriptionArn w2,
        remote (after resolving) subscribing = (Some SubscriptionArn, w2) ->
        outcome r = Fulfilled nothing /\ after r = w2
        /\ trace r
           = (Logged ("Need to subscribe " ++ name fnDef ++ " to "
                      ++ toString (topic_of binding))
              :: trace locating ++ trace resolving
              ++ [Requested subscribing (stage (_opts self)) (region (_opts self));
                  Logged ("Function " ++ Info.FunctionArn info ++ " is now subscribed to "
                          ++ Info.TopicArn info)])%list)
  /\ (forall w2,
        remote (after resolving) subscribing = (None, w2) ->
        outcome r = Rejected subscribing /\ after r = w2).
Proof.
  intros Hdeploy Hattrs locating Hloc resolving Hres Hnone subscribing r.
  assert (Hr := run_subscribeFunction remote self fnName fnDef binding w fnEndpoint info
                  Hdeploy Hloc Hres).
  cbv zeta in Hr. fold locating resolving r in Hr.
  unfold resolved in Hr. rewrite Hnone, Hattrs in Hr.
  unfold js_or in Hr. fold subscribing in Hr.
  unfold request in Hr. cbn [bind run] in Hr. unfold subscribed in Hr.
  destruct (remote (after resolving) subscribing) as [[arn |] w2] eqn:Hsub;
    cbn [run outcome trace after] in Hr.
  - split; [| split].
    + rewrite Hr. cbn [trace].
      change (Logged ?m :: ?a ++ ?b ++ ?c)%list with (([Logged m] ++ a) ++ b ++ c)%list.
      rewrite !mutations_app. unfold locating, resolving.
      rewrite locating_mutates_nothing, resolving_mutates_nothing. reflexivity.
    + intros arn' w2' E. injection E as <- <-. rewrite Hr. repeat split.
    + intros w2' E. discriminate.
  - split; [| split].
    + rewrite Hr. cbn [trace].
      change (Logged ?m :: ?a ++ ?b ++ ?c)%list with (([Logged m] ++ a) ++ b ++ c)%list.
      rewrite !mutations_app. unfold locating, resolving.
      rewrite locating_mutates_nothing, resolving_mutates_nothing. reflexivity.
    + intros arn' w2' E. discriminate.
    + intros w2' E. injection E as <-. rewrite Hr. split; reflexivity.
Qed.

Lemma subscribe_fresh_witness :
  noDeploy (_opts plugin) = false
  /\ subscriptionAttrs_of (bare "orders") = None
  /\ outcome (run aws (_getFunctionEndpoint plugin notify) fresh_account) = Fulfilled null
  /\ outcome (run aws (_getSubscriptionInfo plugin notify (topic_of (bare "orders"))
                         (protocol_of (bare "orders")) (js_or null null))
                (after (run aws (_getFunctionEndpoint plugin notify) fresh_account)))
     = Fulfilled {| Info.FunctionArn := notify_arn; Info.TopicArn := orders_arn;
                    Info.SubscriptionArn := undefined; Info.Endpoint := undefined |}
  /\ truthy undefined = false
  /\ mutations (trace (run aws (subscribeFunction plugin "notify" notify (bare "orders"))
                         fresh_account))
     = [subscribe orders_arn (str "lambda") (str notify_arn)].
Proof.
  repeat (split; [reflexivity |]).
  exact (proj1 (subscribe_fresh aws plugin "notify" notify (bare "orders") fresh_account null
                  {| Info.FunctionArn := notify_arn; Info.TopicArn := orders_arn;
                     Info.SubscriptionArn := undefined; Info.Endpoint := undefined |}
                  eq_refl eq_refl eq_refl eq_refl eq_refl)).
Defined.

Lemma mutations_Logged (msg : string) (tr : list event) :
  mutations (Logged msg :: tr) = mutations tr.
Proof. reflexivity. Qed.

Lemma mutations_Waited (ms : Z) (tr : list event) :
  mutations (Waited ms :: tr) = mutations tr.
Proof. reflexivity. Qed.

Lemma mutations_Requested (c : call) (st rg : jsvalue) (tr : list event) :
  mutations (Requested c st rg :: tr)
  = if mutating c then c :: mutations tr else mutations tr.
Proof. reflexivity. Qed.

Ltac simpl_mutations :=
  repeat (progress (rewrite ?mutations_app, ?mutations_Logged, ?mutations_Waited,
                      ?mutations_Requested, ?locating_mutates_nothing,
                      ?resolving_mutates_nothing));
  cbn [mutating is_subscribe is_unsubscribe is_setSubscriptionAttributes orb app].

(** X15: a subscription still unconfirmed after the wait.  When the
    subscribe response announces a pending confirmation and the resolver,
    asked again after the wait, still reports no subscription, the delivery
    policy is not set: the action issues no set-attributes request and is
    fulfilled with the message 'Subscription ARN was empty', not rejected. *)
Theorem subscribe_pending_unresolved {World : Type}
    (remote : World -> forall c : call, option (reply c) * World)
    (self : Plugin) (fnName : string) (fnDef : FunctionDefinition)
    (binding : TopicBinding) (attrs : Attr.t) (w w2 : World)
    (fnEndpoint : jsvalue) (info newInfo : Info.t) (SubscriptionArn : jsvalue) :
  noDeploy (_opts self) = false ->
  subscriptionAttrs_of binding = Some attrs ->
  let locating := run remote (_getFunctionEndpoint self fnDef) w in
  outcome locating = Fulfilled fnEndpoint ->
  let resolving :=
    run remote (_getSubscriptionInfo self fnDef (topic_of binding) (protocol_of binding)
                  (js_or fnEndpoint null)) (after locating) in
  outcome resolving = Fulfilled info ->
  truthy (Info.SubscriptionArn info) = false ->
  let subscribing :=
    subscribe (Info.TopicArn info) (protocol_of binding)
      (js_or fnEndpoint (str (Info.FunctionArn info))) in
  remote (after resolving) subscribing = (Some SubscriptionArn, w2) ->
  truthy SubscriptionArn = true ->
  indexOf (toLowerCase (toString SubscriptionArn)) "pending confirmation" <> -1 ->
  let again :=
    run remote (_getSubscriptionInfo self fnDef (topic_of binding) (protocol_of binding)
                  undefined) w2 in
  outcome again = Fulfilled newInfo ->
  truthy (Info.SubscriptionArn newInfo) = false ->
  let r := run remote (subscribeFunction self fnName fnDef binding) w in
  outcome r = Fulfilled (message "Subscription ARN was empty")
  /\ mutations (trace r) = [subscribing]
  /\ In (Waited 10000) (trace r)
  /\ after r = after again.
Proof.
  intros Hdeploy Hattrs locating Hloc resolving Hres Hnone subscribing Hsub Htruthy Hpending
         again Hagain Hstill r.
  assert (Hr := run_subscribeFunction remote self fnName fnDef binding w fnEndpoint info
                  Hdeploy Hloc Hres).
  cbv zeta in Hr. fold locating resolving r in Hr.
  unfold resolved in Hr. rewrite Hnone, Hattrs in Hr.
  fold subscribing in Hr. unfold request in Hr. cbn [bind run] in Hr.
  rewrite Hsub in Hr. unfold subscribed in Hr. rewrite Htruthy in Hr.
  assert (Ep : pending_confirmation SubscriptionArn = true).
  { unfold pending_confirmation. apply negb_true_iff, Z.eqb_neq, Hpending. }
  rewrite Ep in Hr. cbn [run] in Hr. rewrite run_bind in Hr. fold again in Hr.
  rewrite (and_then_fulfilled remote _ _ _ Hagain) in Hr.
  cbn [run outcome trace after] in Hr.
  unfold _setSubscriptionAttributes in Hr. rewrite Hstill in Hr.
  cbn [negb run outcome trace after] in Hr.
  rewrite Hr. cbn [outcome trace after].
  split; [reflexivity |]. split; [| split; [| reflexivity]].
  - unfold locating, resolving, again. simpl_mutations. reflexivity.
  - right. apply List.in_or_app. right. apply List.in_or_app. right.
    right. right. right. left. reflexivity.
Qed.

Lemma subscribe_pending_unresolved_witness :
  noDeploy (_opts plugin) = false
  /\ subscriptionAttrs_of orders_https
     = Some {| Attr.name := "DeliveryPolicy"; Attr.value := retry_policy |}
  /\ outcome (run unconfirmed (_getFunctionEndpoint plugin notify_http) tt)
     = Fulfilled (str notify_url)
  /\ unconfirmed tt (subscribe orders_arn (str "https") (str notify_url))
     = (Some (str "pending confirmation"), tt)
  /\ outcome (run unconfirmed (subscribeFunction plugin "notify" notify_http orders_https) tt)
     = Fulfilled (message "Subscription ARN was empty").
Proof.
  repeat (split; [reflexivity |]).
  refine (proj1 (subscribe_pending_unresolved unconfirmed plugin "notify" notify_http
                   orders_https {| Attr.name := "DeliveryPolicy"; Attr.value := retry_policy |}
                   tt tt (str notify_url)
                   {| Info.FunctionArn := notify_arn; Info.TopicArn := orders_arn;
                      Info.SubscriptionArn := undefined; Info.Endpoint := undefined |}
                   {| Info.FunctionArn := notify_arn; Info.TopicArn := orders_arn;
                      Info.SubscriptionArn := undefined; Info.Endpoint := undefined |}
                   (str "pending confirmation")
                   eq_refl eq_refl eq_refl eq_refl eq_refl eq_refl eq_refl _ eq_refl eq_refl)).
  vm_compute. discriminate.
Defined.

(** X16: a failed read mutates nothing.  When the endpoint resolver or the
    subscription resolver is rejected, the subscribe action is rejected by
    the same request and has issued no subscribe, unsubscribe or
    set-attributes request. *)
Theorem subscribe_failure_mutates_nothing {World : Type}
    (remote : World -> forall c : call, option (reply c) * World)
    (self : Plugin) (fnName : string) (fnDef : FunctionDefinition)
    (binding : TopicBinding) (w : World) (failed : call) :
  noDeploy (_opts self) = false ->
  let locating := run remote (_getFunctionEndpoint self fnDef) w in
  outcome locating = Rejected failed
  \/ (exists fnEndpoint,
        outcome locating = Fulfilled fnEndpoint
        /\ outcome (run remote
                      (_getSubscriptionInfo self fnDef (topic_of binding)
                         (protocol_of binding) (js_or fnEndpoint null)) (after locating))
           = Rejected failed) ->
  let r := run remote (subscribeFunction self fnName fnDef binding) w in
  outcome r = Rejected failed /\ mutations (trace r) = [].
Proof.
  intros Hdeploy locating Hfail r. unfold r, subscribeFunction. rewrite Hdeploy.
  cbn [run outcome trace]. rewrite run_bind. fold locating.
  destruct Hfail as [Hloc | [fnEndpoint [Hloc Hres]]].
  - rewrite (and_then_rejected remote _ _ _ Hloc). cbn [outcome trace].
    split; [reflexivity |].
    change (Logged ?m :: ?a)%list with ([Logged m] ++ a)%list.
    rewrite mutations_app. unfold locating. rewrite locating_mutates_nothing. reflexivity.
  - rewrite (and_then_fulfilled remote _ _ _ Hloc). cbn [outcome trace].
    rewrite run_bind, (and_then_rejected remote _ _ _ Hres). cbn [outcome trace].
    split; [reflexivity |].
    change (Logged ?m :: ?a ++ ?b)%list with (([Logged m] ++ a) ++ b)%list.
    rewrite !mutations_app. unfold locating.
    rewrite locating_mutates_nothing, resolving_mutates_nothing. reflexivity.
Qed.

Lemma subscribe_failure_mutates_nothing_witness :
  noDeploy (_opts plugin) = false
  /\ outcome (run offline (_getFunctionEndpoint plugin notify) tt) = Rejected getRestApis
  /\ outcome (run offline (subscribeFunction plugin "notify" notify orders_with_policy) tt)
     = Rejected getRestApis
  /\ mutations (trace (run offline (subscribeFunction plugin "notify" notify
                                      orders_with_policy) tt))
     = [].
Proof.
  split; [reflexivity |]. split; [reflexivity |].
  exact (subscribe_failure_mutates_nothing offline plugin "notify" notify orders_with_policy
           tt getRestApis eq_refl (or_introl eq_refl)).
Defined.

(** ** Bounds on the requests of the actions *)

Ltac bound_issues :=
  repeat lazymatch goal with
    | |- issues _ _ (Ret _) => apply issues_Ret
    | |- issues _ _ (Log _ _) => apply issues_Log
    | |- issues _ _ (Delay _ _) => apply issues_Delay
    | |- issues _ _ (Request _ _ _ _) =>
        first [ apply issues_skip; [reflexivity | intros ?]
              | apply issues_count; intros ? ]
    | |- issues _ _ (if ?b then _ else _) => destruct b
    | |- issues _ _ (match ?x with Some _ => _ | None => _ end) => destruct x
    | |- issues _ _ (bind (if ?b then _ else _) _) => destruct b; cbn [bind]
    | |- issues _ _ (bind _ _) => progress cbn [bind]
    end.

Lemma subscribeFunction_issues (self : Plugin) (fnName : string)
    (fnDef : FunctionDefinition) (binding : TopicBinding) :
  issues (fun _ => true) 7 (subscribeFunction self fnName fnDef binding)
  /\ issues mutating 2 (subscribeFunction self fnName fnDef binding)
  /\ issues is_setSubscriptionAttributes 1 (subscribeFunction self fnName fnDef binding)
  /\ issues is_unsubscribe 0 (subscribeFunction self fnName fnDef binding).
Proof.
  repeat split;
    unfold subscribeFunction, resolved, subscribed, _getFunctionEndpoint, _getRestApiId,
      _getSubscriptionInfo, _setSubscriptionAttributes, request;
    cbn [bind negb]; bound_issues.
Qed.

Lemma unsubscribeFunction_issues (self : Plugin) (fnName : string)
    (fnDef : FunctionDefinition) (binding : TopicBinding) :
  issues (fun _ => true) 3 (unsubscribeFunction self fnName fnDef binding)
  /\ issues mutating 1 (unsubscribeFunction self fnName fnDef binding)
  /\ issues is_subscribe 0 (unsubscribeFunction self fnName fnDef binding)
  /\ issues is_setSubscriptionAttributes 0 (unsubscribeFunction self fnName fnDef binding).
Proof.
  repeat split;
    unfold unsubscribeFunction, _getSubscriptionInfo, request;
    cbn [bind negb]; bound_issues.
Qed.

(** X17: whatever the remote answers, one run of the subscribe action
    issues at most seven requests, of which at most two change the remote:
    at most one [subscribe] and at most one [setSubscriptionAttributes], and
    never an [unsubscribe]. *)
Theorem subscribe_request_bounds {World : Type}
    (remote : World -> forall c : call, option (reply c) * World)
    (self : Plugin) (fnName : string) (fnDef : FunctionDefinition)
    (binding : TopicBinding) (w : World) :
  let requests := calls (trace (run remote (subscribeFunction self fnName fnDef binding) w)) in
  (length requests <= 7)%nat
  /\ (length (List.filter mutating requests) <= 2)%nat
  /\ (length (List.filter is_subscribe requests) <= 1)%nat
  /\ (length (List.filter is_setSubscriptionAttributes requests) <= 1)%nat
  /\ List.filter is_unsubscribe requests = [].
Proof.
  intros requests.
  destruct (subscribeFunction_issues self fnName fnDef binding) as (Hall & Hmut & Hset & Hun).
  split; [| split; [| split; [| split]]].
  - apply (issues_run remote) with (w := w) in Hall.
    fold requests in Hall.
    rewrite (List.forallb_filter_id (fun _ : call => true) requests) in Hall; [exact Hall |].
    apply List.forallb_forall. reflexivity.
  - apply (issues_run remote), Hmut.
  - apply (issues_run remote), subscribeFunction_subscribes_once.
  - apply (issues_run remote), Hset.
  - apply (issues_none_run remote), Hun.
Qed.

(** ** The unsubscribe action *)

(** X18: when the resolver reports a subscription, the unsubscribe action's
    one mutating request is [unsubscribe] on the reported SubscriptionArn.
    Answered, the action logs the deleted identifier and is fulfilled;
    failed, it is rejected by that request. *)
Theorem unsubscribe_existing {World : Type}
    (remote : World -> forall c : call, option (reply c) * World)
    (self : Plugin) (fnName : string) (fnDef : FunctionDefinition)
    (binding : TopicBinding) (w : World) (info : Info.t) :
  let resolving :=
    run remote (_getSubscriptionInfo self fnDef (topic_of binding) undefined undefined) w in
  outcome resolving = Fulfilled info ->
  truthy (Info.SubscriptionArn info) = true ->
  let unsubscribing := unsubscribe (Info.SubscriptionArn info) in
  let r := run remote (unsubscribeFunction self fnName fnDef binding) w in
  mutations (trace r) = [unsubscribing]
  /\ (forall w2,
        remote (after resolving) unsubscribing = (Some tt, w2) ->
        outcome r = Fulfilled nothing /\ after r = w2
        /\ List.last (trace r) (Waited 0)
           = Logged ("Function " ++ Info.FunctionArn info ++ " is no longer subscribed to "
                     ++ Info.TopicArn info ++ " (deleted "
                     ++ toString (Info.SubscriptionArn info) ++ ")"))
  /\ (forall w2,
        remote (after resolving) unsubscribing = (None, w2) ->
        outcome r = Rejected unsubscribing /\ after r = w2).
Proof.
  intros resolving Hres Hsome unsubscribing r.
  assert (Hr := run_unsubscribeFunction remote self fnName fnDef binding w info Hres).
  cbv zeta in Hr. fold resolving r in Hr. rewrite Hsome in Hr.
  cbn [negb] in Hr. fold unsubscribing in Hr. unfold request in Hr. cbn [bind run] in Hr.
  destruct (remote (after resolving) unsubscribing) as [[[] |] w2] eqn:Hun;
    cbn [run outcome trace after] in Hr; rewrite Hr; cbn [outcome trace after].
  - split; [| split].
    + unfold resolving. simpl_mutations. reflexivity.
    + intros w2' E. injection E as <-. split; [reflexivity |]. split; [reflexivity |].
      rewrite List.app_comm_cons.
      change [Requested unsubscribing (stage (_opts self)) (region (_opts self)); ?l]
        with ([Requested unsubscribing (stage (_opts self)) (region (_opts self))] ++ [l])%list.
      rewrite List.app_assoc. apply List.last_last.
    + intros w2' E. discriminate.
  - split; [| split].
    + unfold resolving. simpl_mutations. reflexivity.
    + intros w2' E. discriminate.
    + intros w2' E. injection E as <-. split; reflexivity.
Qed.

Lemma unsubscribe_existing_witness :
  outcome (run aws (_getSubscriptionInfo plugin notify (topic_of (bare "orders")) undefined
                      undefined) subscribed_account)
  = Fulfilled {| Info.FunctionArn := notify_arn; Info.TopicArn := orders_arn;
                 Info.SubscriptionArn := str notify_subscription;
                 Info.Endpoint := str notify_arn |}
  /\ truthy (str notify_subscription) = true
  /\ mutations (trace (run aws (unsubscribeFunction plugin "notify" notify (bare "orders"))
                         subscribed_account))
     = [unsubscribe (str notify_subscription)].
Proof.
  split; [reflexivity |]. split; [reflexivity |].
  exact (proj1 (unsubscribe_existing aws plugin "notify" notify (bare "orders")
                  subscribed_account
                  {| Info.FunctionArn := notify_arn; Info.TopicArn := orders_arn;
                     Info.SubscriptionArn := str notify_subscription;
                     Info.Endpoint := str notify_arn |}
                  eq_refl eq_refl)).
Defined.

(** X19: whatever the remote answers, one run of the unsubscribe action
    issues at most three requests, at most one of which changes the remote,
    and never a [subscribe] or a [setSubscriptionAttributes]; and when its
    resolver is rejected the action is rejected by the same request without
    having changed anything. *)
Theorem unsubscribe_request_bounds {World : Type}
    (remote : World -> forall c : call, option (reply c) * World)
    (self : Plugin) (fnName : string) (fnDef : FunctionDefinition)
    (binding : TopicBinding) (w : World) :
  let r := run remote (unsubscribeFunction self fnName fnDef binding) w in
  let requests := calls (trace r) in
  (length requests <= 3)%nat
  /\ (length (List.filter mutating requests) <= 1)%nat
  /\ List.filter is_subscribe requests = []
  /\ List.filter is_setSubscriptionAttributes requests = []
  /\ (forall failed,
        outcome (run remote (_getSubscriptionInfo self fnDef (topic_of binding) undefined
                               undefined) w)
        = Rejected failed ->
        outcome r = Rejected failed /\ mutations (trace r) = []).
Proof.
  intros r requests.
  destruct (unsubscribeFunction_issues self fnName fnDef binding) as (Hall & Hmut & Hsub & Hset).
  split; [| split; [| split; [| split]]].
  - apply (issues_run remote) with (w := w) in Hall.
    fold r requests in Hall.
    rewrite (List.forallb_filter_id (fun _ : call => true) requests) in Hall; [exact Hall |].
    apply List.forallb_forall. reflexivity.
  - apply (issues_run remote), Hmut.
  - apply (issues_none_run remote), Hsub.
  - apply (issues_none_run remote), Hset.
  - intros failed Hres. unfold r, unsubscribeFunction. cbn [run outcome trace].
    rewrite run_bind, (and_then_rejected remote _ _ _ Hres). cbn [outcome trace].
    split; [reflexivity |]. simpl_mutations. reflexivity.
Qed.

(** ** Subscribing twice *)

Lemma run_reaches {World : Type}
    (remote : World -> forall c : call, option (reply c) * World)
    {A : Type} (p : prog A) (w : World) :
  issues is_unsubscribe 0 p -> reaches remote w (after (run remote p w)).
Proof.
  intros H. remember 0%nat as n eqn:En. revert w.
  induction H as [n a | n msg k _ IH | n ms k _ IH | n c st rg k Hc _ IH | n c st rg k _ IH];
    intros w.
  - apply reaches_refl.
  - apply (IH En).
  - apply (IH En).
  - cbn [run]. apply (reaches_step remote w _ c Hc).
    destruct (remote w c) as [[answer |] w'] eqn:E; cbn [after snd].
    + apply (IH answer En).
    + apply reaches_refl.
  - discriminate En.
Qed.

Lemma reaches_trans {World : Type}
    (remote : World -> forall c : call, option (reply c) * World) (w1 w2 w3 : World) :
  reaches remote w1 w2 -> reaches remote w2 w3 -> reaches remote w1 w3.
Proof.
  intros H12 H23.
  induction H12 as [w | w w' c Hc _ IH]; [exact H23 |].
  apply (reaches_step remote w _ c Hc), IH, H23.
Qed.

Lemma reaches_one {World : Type}
    (remote : World -> forall c : call, option (reply c) * World) (w : World) (c : call) :
  is_unsubscribe c = false -> reaches remote w (snd (remote w c)).
Proof. intros Hc. apply (reaches_step remote w _ c Hc), reaches_refl. Qed.

Lemma is_unsubscribe_mutating (c : call) : mutating c = false -> is_unsubscribe c = false.
Proof. destruct c; try reflexivity; discriminate. Qed.

Lemma reads_keep (P : call -> bool) {A : Type} (p : prog A) :
  (forall c, P c = true -> mutating c = true) -> issues mutating 0 p -> issues P 0 p.
Proof. intros H. apply issues_weaken, H. Qed.

Lemma subscribed_unsubscribes_nothing (self : Plugin) (fnDef : FunctionDefinition)
    (topicName protocol : jsvalue) (subscriptionAttrs : option Attr.t)
    (info : Info.t) (SubscriptionArn : jsvalue) :
  issues is_unsubscribe 0
    (subscribed self fnDef topicName protocol subscriptionAttrs info SubscriptionArn).
Proof.
  unfold subscribed, _getSubscriptionInfo, _setSubscriptionAttributes, request.
  cbn [bind negb]. bound_issues.
Qed.

Lemma resolved_existing_keeps (self : Plugin) (fnDef : FunctionDefinition)
    (topicName protocol : jsvalue) (subscriptionAttrs : option Attr.t)
    (fnEndpoint : jsvalue) (info : Info.t) :
  truthy (Info.SubscriptionArn info) = true ->
  issues is_subscribe 0
    (resolved self fnDef topicName protocol subscriptionAttrs fnEndpoint info).
Proof.
  intros H. unfold resolved. rewrite H. apply issues_Log.
  destruct subscriptionAttrs as [attrs |]; [| apply issues_Ret].
  apply issues_Log, setSubscriptionAttributes_keeps.
Qed.

Section Confirming.
Context {World : Type}.
Variable remote : World -> forall c : call, option (reply c) * World.
Variable Inv : World -> Prop.
Variable Listed : World -> string -> Sub.t -> Prop.
Hypothesis confirming : lists_confirmed remote Inv Listed.

Lemma Inv_reaches (w w' : World) : Inv w -> reaches remote w w' -> Inv w'.
Proof.
  intros HI H. induction H as [w | w w' c _ _ IH]; [exact HI |].
  apply IH, (inv_step remote Inv Listed confirming), HI.
Qed.

Lemma Listed_reaches (w w' : World) (t : string) (s : Sub.t) :
  Listed w t s -> reaches remote w w' -> Listed w' t s.
Proof.
  intros HL H. induction H as [w | w w' c Hc _ IH]; [exact HL |].
  apply IH, (listed_step remote Inv Listed confirming), HL. exact Hc.
Qed.

Lemma function_reaches (w w' : World) (n : string) :
  reaches remote w w' ->
  fst (remote w' (getFunction n)) = fst (remote w (getFunction n)).
Proof.
  intros H. induction H as [w | w w' c _ _ IH]; [reflexivity |].
  rewrite IH. apply (function_step remote Inv Listed confirming).
Qed.

(** A run that starts where a fitting subscription is on record recognises
    it: it issues no subscribe request. *)
Lemma subscribeFunction_recognises (self : Plugin) (fnName : string)
    (fnDef : FunctionDefinition) (binding : TopicBinding) (w : World)
    (fnArn : string) (s : Sub.t) :
  noDeploy (_opts self) = false ->
  Inv w ->
  Listed w (topicArn_of fnArn (topic_of binding)) s ->
  (forall w', reaches remote w w' ->
     forall fnArn' w'', remote w' (getFunction (name fnDef)) = (Some fnArn', w'') ->
                        fnArn' = fnArn) ->
  Sub.Protocol s = protocol_of binding ->
  indexOf (toLowerCase (Sub.SubscriptionArn s)) "pending" = -1 ->
  List.filter is_subscribe
    (calls (trace (run remote (subscribeFunction self fnName fnDef binding) w)))
  = [].
Proof.
  intros Hdeploy HI HL Hfn Hprotocol Hnp.
  unfold subscribeFunction. rewrite Hdeploy. cbn [run trace calls].
  rewrite run_bind.
  set (locating := run remote (_getFunctionEndpoint self fnDef) w).
  assert (Rloc : reaches remote w (after locating)).
  { apply run_reaches, (reads_keep is_unsubscribe); [apply mutating_is_unsubscribe |].
    apply getFunctionEndpoint_reads. }
  assert (Nloc : List.filter is_subscribe (calls (trace locating)) = []).
  { apply issues_none_run, (reads_keep is_subscribe); [apply mutating_is_subscribe |].
    apply getFunctionEndpoint_reads. }
  destruct (outcome locating) as [fnEndpoint | failed] eqn:Hloc.
  2: { rewrite (and_then_rejected remote _ _ _ Hloc). cbn [trace]. exact Nloc. }
  rewrite (and_then_fulfilled remote _ _ _ Hloc). cbn [trace].
  rewrite run_bind.
  set (resolving := run remote
                      (_getSubscriptionInfo self fnDef (topic_of binding)
                         (protocol_of binding) (js_or fnEndpoint null)) (after locating)).
  assert (Nres : List.filter is_subscribe (calls (trace resolving)) = []).
  { apply issues_none_run, (reads_keep is_subscribe); [apply mutating_is_subscribe |].
    apply getSubscriptionInfo_reads. }
  destruct (outcome resolving) as [info | failed] eqn:Hres.
  2: { rewrite (and_then_rejected remote _ _ _ Hres). cbn [trace].
       rewrite calls_app, List.filter_app, Nloc, Nres. reflexivity. }
  rewrite (and_then_fulfilled remote _ _ _ Hres). cbn [trace].
  rewrite !calls_app, !List.filter_app, Nloc, Nres. cbn [app].
  apply issues_none_run, resolved_existing_keeps.
  apply getSubscriptionInfo_fulfilled in Hres as (fnArn' & w1 & subs & w2 & Hget & Hlist & ->).
  assert (fnArn' = fnArn) as -> by exact (Hfn _ Rloc _ _ Hget).
  assert (Ew1 : snd (remote (after locating) (getFunction (name fnDef))) = w1)
    by (rewrite Hget; reflexivity).
  assert (Hin : In s subs).
  { apply (listed_lists remote Inv Listed confirming w1 w2 _ s subs); [| exact Hlist].
    rewrite <- Ew1. apply (listed_step remote Inv Listed confirming); [reflexivity |].
    apply (Listed_reaches w); assumption. }
  assert (Hsel : is_existing (protocol_of binding) (js_or fnEndpoint null) fnArn s = true).
  { apply is_existing_true. split; [exact Hnp | left; exact Hprotocol]. }
  destruct (List.find (is_existing (protocol_of binding) (js_or fnEndpoint null) fnArn) subs)
    as [found |] eqn:Efind.
  - apply List.find_some in Efind as [Hfound _].
    cbn [info_of Info.SubscriptionArn truthy].
    apply negb_true_iff, String.eqb_neq.
    apply (listed_arns remote Inv Listed confirming w1 w2 _ found subs); [| exact Hlist | exact Hfound].
    rewrite <- Ew1. apply (inv_step remote Inv Listed confirming).
    apply (Inv_reaches w); assumption.
  - rewrite (List.find_none _ _ Efind s Hin) in Hsel. discriminate.
Qed.

End Confirming.

Lemma arn_not_empty (t x : string) : t ++ ":" ++ x <> "".
Proof. destruct t; discriminate. Qed.

Lemma In_on_topic (t : string) (s : Sub.t) (l : list (string * Sub.t)) :
  In s (on_topic t l) <-> In (t, s) l.
Proof.
  unfold on_topic. rewrite List.in_map_iff. split.
  - intros [[t' s'] [E H]]. cbn [snd] in E. subst s'.
    apply List.filter_In in H as [H Ht]. cbn [fst] in Ht.
    apply String.eqb_eq in Ht. subst t'. exact H.
  - intros H. exists (t, s). split; [reflexivity |].
    apply List.filter_In. split; [exact H | apply String.eqb_refl].
Qed.

(** The scenario remote keeps its books in that way. *)
Lemma aws_lists_confirmed : lists_confirmed aws well_listed confirmed_in.
Proof.
  split.
  - intros w c HI. unfold well_listed in *.
    destruct c; cbn [aws snd]; try exact HI.
    + cbn [confirmed awaiting]. rewrite List.app_nil_r. exact HI.
    + destruct (strict_eq Protocol0 (str "lambda")); cbn [snd confirmed awaiting];
        intros e He; rewrite <- ?List.app_assoc in He;
        repeat (apply List.in_app_or in He as [He | He]);
        try (apply HI, List.in_or_app; auto; fail);
        destruct He as [<- | []]; apply arn_not_empty.
    + cbn [confirmed awaiting]. intros e He. apply HI.
      apply List.in_app_or in He as [He | He]; apply List.in_or_app; [left | right; exact He].
      apply List.filter_In in He as [He _]. exact He.
  - intros w w' t p e a _ H Hnp. unfold confirmed_in. cbn [aws] in H.
    destruct (strict_eq p (str "lambda")); injection H as <- <-.
    + cbn [confirmed]. apply List.in_or_app. right. left. reflexivity.
    + vm_compute in Hnp. discriminate.
  - intros w c t s Hc H. unfold confirmed_in in *.
    destruct c; cbn [aws snd]; try exact H; try discriminate.
    + cbn [confirmed]. apply List.in_or_app. left. exact H.
    + destruct (strict_eq Protocol0 (str "lambda")); cbn [snd confirmed]; [| exact H].
      apply List.in_or_app. left. exact H.
  - intros w w' t s subs H E. cbn [aws] in E. injection E as <- _.
    apply List.in_or_app. left. apply In_on_topic, H.
  - intros w w' t s subs HI E Hin. cbn [aws] in E. injection E as <- _.
    apply List.in_app_or in Hin as [Hin | Hin].
    + apply In_on_topic in Hin. apply (HI (t, s)), List.in_or_app. left. exact Hin.
    + apply List.in_map_iff in Hin as [x [<- _]]. discriminate.
  - intros w c n. destruct c; cbn [aws fst snd lambdas]; try reflexivity.
    destruct (strict_eq Protocol0 (str "lambda")); reflexivity.
Qed.



